(** * PDF_Merger: pagination and composition engine of [pdf_merger.py]

    A shallow embedding of the core of [pdf_merger.py] (page counting,
    footer and cover rendering, and the assembly loop of
    [create_final_report]) together with the properties the natural-language
    specification states about it.

    Modelling conventions.
    - The file system is a finite map from paths to files; a path that is
      absent cannot be opened, a file that is not a PDF cannot be parsed.
    - A PDF page is its display list (the painted primitives, in painting
      order).  Merging an overlay onto a page composites the overlay's
      primitives after the page's own.
    - PyPDF2 and reportlab are external: a [PdfReader] either raises or
      yields the page objects of the file, each of which may raise when it
      is read or when an overlay is merged onto it; the canvas is modelled
      by its graphics state and display list; font metrics ([stringWidth])
      are a parameter.
    - Coordinates are binary64 floats, as in Python.
    - Python's [try]/[except] is the [try_except] of a state-and-exception
      monad: the state reached when the exception is raised is kept.
    - [os.path] is modelled after [posixpath].
    - The user-interface functions ([main], [process_files],
      [pick_files_and_title]) run over the answers a user gives to the
      tkinter dialogs; [sys.exit] is an outcome of its own, which
      [except Exception] does not catch; starting the platform's viewer is
      one observed event. *)

From Stdlib Require Import Ascii String Floats.PrimFloat DecimalString DecimalNat.
From stdpp Require Import gmap strings list.
From Stdlib Require Import ssreflect.

Set Warnings "-inexact-float,-rewrite-rw".
Local Open Scope string_scope.
Local Open Scope list_scope.

(** ** [os.path] (posixpath) *)

Module PosixPath.

(** [str.rfind(c)]: index of the last occurrence of [c], or [-1]. *)
Fixpoint rfind_from (c : ascii) (s : string) (i : Z) : Z :=
  match s with
  | EmptyString => (-1)%Z
  | String a s' =>
      let r := rfind_from c s' (i + 1)%Z in
      if (0 <=? r)%Z then r else if Ascii.eqb a c then i else (-1)%Z
  end.

Definition rfind (c : ascii) (s : string) : Z := rfind_from c s 0%Z.

(** [s[n:]] and [s[:n]] for a non-negative [n]. *)
Fixpoint drop_str (n : nat) (s : string) : string :=
  match n, s with
  | O, _ => s
  | S n', String _ s' => drop_str n' s'
  | S _, EmptyString => EmptyString
  end.

Fixpoint take_str (n : nat) (s : string) : string :=
  match n, s with
  | O, _ => EmptyString
  | S n', String a s' => String a (take_str n' s')
  | S _, EmptyString => EmptyString
  end.

Definition sep : ascii := "/"%char.
Definition extsep : ascii := "."%char.

(** [posixpath.basename]: [i = p.rfind('/') + 1; return p[i:]]. *)
Definition basename (p : string) : string :=
  let i := (rfind sep p + 1)%Z in
  drop_str (Z.to_nat i) p.

(** The [while] loop of [genericpath._splitext]: scan
    [filenameIndex .. dotIndex) for a character that is not a dot. *)
Fixpoint has_non_dot (s : string) (filenameIndex : nat) (count : nat) : bool :=
  match count with
  | O => false
  | S count' =>
      match String.get filenameIndex s with
      | Some a => if Ascii.eqb a extsep
                  then has_non_dot s (S filenameIndex) count'
                  else true
      | None => true
      end
  end.

(** [posixpath.splitext] = [genericpath._splitext(p, '/', None, '.')]. *)
Definition splitext (p : string) : string * string :=
  let sepIndex := rfind sep p in
  let dotIndex := rfind extsep p in
  if (sepIndex <? dotIndex)%Z then
    let filenameIndex := (sepIndex + 1)%Z in
    if has_non_dot p (Z.to_nat filenameIndex) (Z.to_nat (dotIndex - filenameIndex))
    then (take_str (Z.to_nat dotIndex) p, drop_str (Z.to_nat dotIndex) p)
    else (p, EmptyString)
  else (p, EmptyString).

End PosixPath.

(** ** reportlab canvas *)

Module Canvas.

Definition RGB : Type := float * float * float.

(** One painted primitive, with the graphics state it was painted in. *)
Inductive Prim :=
| Rect (x y width height : float) (fill stroke : option RGB)
| Text (x y : float) (text : string) (fontName : string) (fontSize : float) (color : RGB)
| Line (x1 y1 x2 y2 : float) (color : RGB).

Record t := mk {
  fontName : string;
  fontSize : float;
  fillColor : RGB;
  strokeColor : RGB;
  pagesize : float * float;
  code : list Prim
}.

Definition black : RGB := (0, 0, 0)%float.

(** [canvas.Canvas(packet, pagesize=...)]: Helvetica 12, black on black. *)
Definition Canvas (size : float * float) : t :=
  {| fontName := "Helvetica"; fontSize := 12%float;
     fillColor := black; strokeColor := black;
     pagesize := size; code := [] |}.

Definition setFillColorRGB (r g b : float) (c : t) : t :=
  {| fontName := fontName c; fontSize := fontSize c;
     fillColor := (r, g, b); strokeColor := strokeColor c;
     pagesize := pagesize c; code := code c |}.

Definition setStrokeColorRGB (r g b : float) (c : t) : t :=
  {| fontName := fontName c; fontSize := fontSize c;
     fillColor := fillColor c; strokeColor := (r, g, b);
     pagesize := pagesize c; code := code c |}.

Definition setFont (name : string) (size : float) (c : t) : t :=
  {| fontName := name; fontSize := size;
     fillColor := fillColor c; strokeColor := strokeColor c;
     pagesize := pagesize c; code := code c |}.

Definition paint (p : Prim) (c : t) : t :=
  {| fontName := fontName c; fontSize := fontSize c;
     fillColor := fillColor c; strokeColor := strokeColor c;
     pagesize := pagesize c; code := code c ++ [p] |}.

Definition rect (x y width height : float) (fill stroke : bool) (c : t) : t :=
  paint (Rect x y width height
           (if fill then Some (fillColor c) else None)
           (if stroke then Some (strokeColor c) else None)) c.

Definition drawString (x y : float) (text : string) (c : t) : t :=
  paint (Text x y text (fontName c) (fontSize c) (fillColor c)) c.

Definition line (x1 y1 x2 y2 : float) (c : t) : t :=
  paint (Line x1 y1 x2 y2 (strokeColor c)) c.

End Canvas.

(** A page is its display list. *)
Definition Page : Type := list Canvas.Prim.

(** [reportlab.lib.units.inch] and [reportlab.lib.pagesizes.letter]. *)
Definition inch : float := 72%float.
Definition letter : float * float := (612, 792)%float.

(** [str(n)] for a non-negative [int]. *)
Definition str_of_nat (n : nat) : string :=
  NilEmpty.string_of_uint (Nat.to_uint n).

(** Python truthiness of [report_title] ([None] and [""] are false). *)
Definition truthy (report_title : option string) : bool :=
  match report_title with
  | Some EmptyString => false
  | Some _ => true
  | None => false
  end.

(** What [drawString] prints for a truthy [report_title]. *)
Definition title_text (report_title : option string) : string :=
  match report_title with Some s => s | None => "None" end.

(** ** The world: input files, the destination, the run's state *)

(** A page object handed out by [reader.pages]: usable, or raising when
    it is read, or raising when an overlay is merged onto it. *)
Inductive PageObj :=
| Good (content : Page)
| BadRead
| BadMerge (content : Page).

(** A file: not a PDF ([PdfReader] raises), or a PDF with its page
    objects.  [len(reader.pages)] is the number of page objects, and the
    iteration of [reader.pages] is bounded by the same length; the input
    files do not change during a run. *)
Inductive PdfFile :=
| NotPdf
| Pdf (pages : list PageObj).

(** How writing the output fails: [open(output_path, "wb")] raises, or
    [writer.write] raises after the file was created. *)
Inductive WriteFault := CannotOpen | FailsMidway.

(** The exceptions the modelled operations raise. *)
Inductive Exn :=
| FileNotFoundError (path : string)
| PdfReadError
| PageReadError
| MergeError
| OSError (path : string).

(** The (page_number, total_pages, report_title) triple of a footer. *)
Record FooterSpec := mkSpec {
  page_number : nat;
  total_pages : nat;
  report_title : option string
}.

(** The log lines and error dialogs of the program, one constructor per
    format string, with the values it prints. *)
Inductive LogMsg :=
| MsgStart
| MsgTotal (total : nat)
| MsgMain (name : string)
| MsgAddedMain (i n : nat)
| MsgTrial (i : nat) (title : string)
| MsgCover (n : nat)
| MsgAddedTrial (i j n : nat)
| MsgWriting (path : string)
| MsgComplete (path : string)
| MsgErrPageCount (path : string) (e : Exn)
| MsgErrMain (e : Exn)
| MsgErrTrial (title : string) (e : Exn)
| MsgErrWrite (e : Exn).

(** What a run does that can be observed, in order. *)
Inductive Event :=
| LogInfo (m : LogMsg)
| LogError (m : LogMsg)
| ShowError (m : LogMsg)
| MakeOverlay (spec : FooterSpec)
| MakeCover (title : string) (spec : FooterSpec)
| AddPage (p : Page).

(** The file system, the [PdfWriter] of the run (its pages), the local
    [current_page], and what was observed so far. *)
Record State := mkState {
  fsys : gmap string PdfFile;
  writer : list Page;
  current_page : nat;
  trace : list Event
}.

(** ** State and exceptions *)

(** A computation returns a value or raises, in either case in a state. *)
Inductive Res (A : Type) :=
| Ok (a : A) (s : State)
| Raise (e : Exn) (s : State).
Arguments Ok {A} a s.
Arguments Raise {A} e s.

Definition M (A : Type) : Type := State -> Res A.

Definition state_of {A} (r : Res A) : State :=
  match r with Ok _ s => s | Raise _ s => s end.

Definition is_ok {A} (r : Res A) : bool :=
  match r with Ok _ _ => true | Raise _ _ => false end.

Definition ret {A} (a : A) : M A := fun s => Ok a s.

Definition bind {A B} (m : M A) (k : A -> M B) : M B :=
  fun s => match m s with
           | Ok a s' => k a s'
           | Raise e s' => Raise e s'
           end.

Definition raise {A} (e : Exn) : M A := fun s => Raise e s.

(** [try: m  except Exception as e: handler(e)] *)
Definition try_except {A} (m : M A) (handler : Exn -> M A) : M A :=
  fun s => match m s with
           | Ok a s' => Ok a s'
           | Raise e s' => handler e s'
           end.

Notation "'let*' x ':=' m 'in' k" := (bind m (fun x => k))
  (at level 10, x pattern, m at level 100, k at level 200).

(** [for i, x in enumerate(l, start): body(i, x)] *)
Fixpoint for_enumerate_from {A} (start : nat) (l : list A) (body : nat -> A -> M unit) : M unit :=
  match l with
  | [] => ret tt
  | x :: l' => let* _ := body start x in for_enumerate_from (S start) l' body
  end.

Definition for_enumerate {A} (l : list A) (body : nat -> A -> M unit) : M unit :=
  for_enumerate_from 0 l body.

(** [for x in l: acc = body(x, acc)] *)
Fixpoint for_in {A B} (l : list A) (acc : B) (body : A -> B -> M B) : M B :=
  match l with
  | [] => ret acc
  | x :: l' => let* acc' := body x acc in for_in l' acc' body
  end.

(** ** The user-interface layer: answers, observations, outcomes *)

(** What the desktop and the user answer to [main], [process_files] and
    [pick_files_and_title]: the screen size, whether Start is pressed, and
    the results of the tkinter dialogs (an empty string or tuple when a file
    dialog is cancelled, [None] when the title prompt is). *)
Record User := mkUser {
  winfo_screenwidth : Z;
  winfo_screenheight : Z;
  presses_start : bool;
  askopenfilename : string;
  askopenfilenames : list string;
  askstring : option string;
  asksaveasfilename : string -> string;
  askyesno : bool
}.

(** The log lines of the user-interface functions. *)
Inductive UiMsg :=
| MsgNoGui
| MsgNoFiles
| MsgCancelled
| MsgMainPdf (path : string)
| MsgTrialPdfs (names : list string)
| MsgReportTitle (title : option string)
| MsgUnexpected (e : Exn).

(** What the user-interface functions do that can be observed, in order;
    [CallReport] marks the call of [create_final_report], [OpenViewer] the
    attempt to open the result with the platform's viewer. *)
Inductive UiEvent :=
| UiLogInfo (m : UiMsg)
| UiLogError (m : UiMsg)
| UiShowError (m : UiMsg)
| Welcome (x y : Z)
| AskMain
| AskTrials
| AskTitle
| AskSave (initialfile : string)
| CallReport (main_pdf : string) (trial_pdfs : list string) (output_pdf : string)
             (title : option string)
| AskOpenNow (output_pdf : string)
| OpenViewer (output_pdf : string).

(** The state of the application: the state of the engine, and what the
    user-interface functions did. *)
Record App := mkApp {
  core : State;
  ui : list UiEvent
}.

(** A user-interface function returns, leaves through [sys.exit], or raises
    an [Exception]. *)
Inductive Outcome (A : Type) :=
| Done (a : A) (app : App)
| Exit (code : Z) (app : App)
| Failed (e : Exn) (app : App).
Arguments Done {A} a app.
Arguments Exit {A} code app.
Arguments Failed {A} e app.

Definition U (A : Type) : Type := App -> Outcome A.

Definition app_of {A} (o : Outcome A) : App :=
  match o with Done _ app => app | Exit _ app => app | Failed _ app => app end.

Definition uret {A} (a : A) : U A := fun app => Done a app.

Definition ubind {A B} (m : U A) (k : A -> U B) : U B :=
  fun app => match m app with
             | Done a app' => k a app'
             | Exit code app' => Exit code app'
             | Failed e app' => Failed e app'
             end.

(** [sys.exit(code)]: [SystemExit] is not an [Exception]. *)
Definition sys_exit {A} (code : Z) : U A := fun app => Exit code app.

(** [try: m  except Exception as e: handler(e)] around user-interface code:
    [sys.exit] passes through. *)
Definition except_Exception {A} (m : U A) (handler : Exn -> U A) : U A :=
  fun app => match m app with
             | Failed e app' => handler e app'
             | o => o
             end.

Definition ui_emit (ev : UiEvent) : U unit :=
  fun app => Done tt (mkApp (core app) (ui app ++ [ev])).

(** A call into the engine. *)
Definition lift {A} (m : M A) : U A :=
  fun app => match m (core app) with
             | Ok a s => Done a (mkApp s (ui app))
             | Raise e s => Failed e (mkApp s (ui app))
             end.

Notation "'let+' x ':=' m 'in' k" := (ubind m (fun x => k))
  (at level 10, x pattern, m at level 100, k at level 200).

(** Python truthiness of a string and of a list that may be [None]. *)
Definition not_str (s : string) : bool :=
  match s with EmptyString => true | _ => false end.

Definition truthy_list (l : option (list string)) : bool :=
  match l with
  | Some (_ :: _) => true
  | _ => false
  end.

(** A directory prefix: empty, or ending with a slash. *)
Definition is_dir_prefix (dir : string) : Prop :=
  dir = "" \/ exists d, dir = d +:+ "/".

(** ** Sample inputs *)

(** A fixed-pitch font metric: every glyph is 0.6 em wide. *)
Fixpoint mono_width (text : string) (fontName : string) (fontSize : float) : float :=
  match text with
  | EmptyString => 0%float
  | String _ rest => (0.6 * fontSize + mono_width rest fontName fontSize)%float
  end.

(** One line of text, as the content of a source page. *)
Definition sample_page (text : string) : Page :=
  [Canvas.Text 72 720 text "Helvetica" 12 Canvas.black].

(** A two-page main document and a one-page trial; [/in/a.pdf] is absent
    and [/in/notes.txt] is not a PDF. *)
Definition sample_fs : gmap string PdfFile :=
  <["/in/main.pdf" := Pdf [Good (sample_page "m1"); Good (sample_page "m2")]]>
  (<["/in/b.pdf" := Pdf [Good (sample_page "b1")]]>
  (<["/in/notes.txt" := NotPdf]> ∅)).

(** A user who selects the sample main document and trials, enters a title,
    accepts the suggested name in [/out/] and asks to open the result. *)
Definition sample_user : User :=
  {| winfo_screenwidth := 1920; winfo_screenheight := 1080;
     presses_start := true;
     askopenfilename := "/in/main.pdf";
     askopenfilenames := ["/in/a.pdf"; "/in/b.pdf"];
     askstring := Some "Report";
     asksaveasfilename := fun initialfile => "/out/" +:+ initialfile;
     askyesno := true |}.

Section Engine.

(** [canvas.stringWidth(text, fontName, fontSize)]: the font metrics. *)
Variable stringWidth : string -> string -> float -> float.

(** [HAS_GUI]: whether tkinter could be imported. *)
Variable HAS_GUI : bool.

(** Whether, and how, writing to a destination fails. *)
Variable write_fault : string -> option WriteFault.

Import Canvas.

(** [create_page_number_overlay(page_num, total_pages, report_title)] *)
Definition create_page_number_overlay
    (page_num total_pages : nat) (report_title : option string) : Page :=
  let c := Canvas letter in
  let '(w, h) := letter in
  let c := setFillColorRGB 1 1 1 c in
  let c := rect 0 0 w (0.7 * inch) true false c in
  let c := setFont "Helvetica" 10 c in
  let c := setFillColorRGB 0 0 0 c in
  let c := if truthy report_title
           then drawString (0.5 * inch) (0.25 * inch) (title_text report_title) c
           else c in
  let page_text := "Page " +:+ str_of_nat page_num +:+ " of " +:+ str_of_nat total_pages in
  let text_width := stringWidth page_text "Helvetica" 10 in
  let c := drawString ((w - text_width) / 2) (0.25 * inch) page_text c in
  let c := setStrokeColorRGB 0.5 0.5 0.5 c in
  let c := line (0.5 * inch) (0.5 * inch) (w - 0.5 * inch) (0.5 * inch) c in
  code c.

(** [create_cover_page(title, page_num, total_pages, report_title)] *)
Definition create_cover_page
    (title : string) (page_num total_pages : nat) (report_title : option string) : Page :=
  let c := Canvas letter in
  let '(w, h) := letter in
  let c := setFont "Helvetica-Bold" 24 c in
  let title_width := stringWidth title "Helvetica-Bold" 24 in
  let c := drawString ((w - title_width) / 2) (h / 2) title c in
  let c := setFillColorRGB 1 1 1 c in
  let c := rect 0 0 w (0.7 * inch) true false c in
  let c := setFont "Helvetica" 10 c in
  let c := setFillColorRGB 0 0 0 c in
  let c := if truthy report_title
           then drawString (0.5 * inch) (0.25 * inch) (title_text report_title) c
           else c in
  let page_text := "Page " +:+ str_of_nat page_num +:+ " of " +:+ str_of_nat total_pages in
  let text_width := stringWidth page_text "Helvetica" 10 in
  let c := drawString ((w - text_width) / 2) (0.25 * inch) page_text c in
  let c := setStrokeColorRGB 0.5 0.5 0.5 c in
  let c := line (0.5 * inch) (0.5 * inch) (w - 0.5 * inch) (0.5 * inch) c in
  code c.

(** The title line of a cover page: bold 24pt, centred at mid-page. *)
Definition cover_title_prim (title : string) : Prim :=
  Text ((612 - stringWidth title "Helvetica-Bold" 24) / 2) (792 / 2)
       title "Helvetica-Bold" 24 black.

(** [page.merge_page(overlay)] on a page that can be merged. *)
Definition merged (page overlay : Page) : Page := page ++ overlay.


(** *** Primitive operations *)

Definition emit (ev : Event) : M unit :=
  fun s => Ok tt (mkState (fsys s) (writer s) (current_page s) (trace s ++ [ev])).

Definition logger_info (m : LogMsg) : M unit := emit (LogInfo m).
Definition logger_error (m : LogMsg) : M unit := emit (LogError m).
Definition messagebox_showerror (m : LogMsg) : M unit := emit (ShowError m).

(** [open(path, 'rb')] *)
Definition open_rb (path : string) : M PdfFile :=
  fun s => match fsys s !! path with
           | Some f => Ok f s
           | None => Raise (FileNotFoundError path) s
           end.

(** [PdfReader(f)] followed by [reader.pages]. *)
Definition reader_pages (f : PdfFile) : M (list PageObj) :=
  match f with
  | Pdf pages => ret pages
  | NotPdf => raise PdfReadError
  end.

(** [PdfReader(path).pages] *)
Definition PdfReader (path : string) : M (list PageObj) :=
  let* f := open_rb path in reader_pages f.

(** The iterator of [reader.pages] yielding one page object. *)
Definition next_page (obj : PageObj) : M PageObj :=
  match obj with
  | BadRead => raise PageReadError
  | _ => ret obj
  end.

(** [page.merge_page(overlay)]; the merged page is returned. *)
Definition merge_page (page : PageObj) (overlay : Page) : M Page :=
  match page with
  | Good content => ret (merged content overlay)
  | BadMerge _ => raise MergeError
  | BadRead => raise PageReadError
  end.

(** [writer = PdfWriter()] *)
Definition new_writer : M unit :=
  fun s => Ok tt (mkState (fsys s) [] (current_page s) (trace s)).

(** [writer.add_page(page)] *)
Definition add_page (page : Page) : M unit :=
  fun s => Ok tt (mkState (fsys s) (writer s ++ [page]) (current_page s)
                          (trace s ++ [AddPage page])).

Definition get_current_page : M nat := fun s => Ok (current_page s) s.

Definition set_current_page (n : nat) : M unit :=
  fun s => Ok tt (mkState (fsys s) (writer s) n (trace s)).

(** [with open(output_path, "wb") as f: writer.write(f)] *)
Definition write_output (output_path : string) : M unit :=
  fun s => match write_fault output_path with
           | None =>
               Ok tt (mkState (<[output_path := Pdf (Good <$> writer s)]> (fsys s))
                              (writer s) (current_page s) (trace s))
           | Some CannotOpen => Raise (OSError output_path) s
           | Some FailsMidway =>
               Raise (OSError output_path)
                     (mkState (<[output_path := NotPdf]> (fsys s))
                              (writer s) (current_page s) (trace s))
           end.

(** The two renderers, with the call recorded in the trace. *)
Definition call_overlay (page_num total : nat) (title : option string) : M Page :=
  let* _ := emit (MakeOverlay (mkSpec page_num total title)) in
  ret (create_page_number_overlay page_num total title).

Definition call_cover (t : string) (page_num total : nat) (title : option string) : M Page :=
  let* _ := emit (MakeCover t (mkSpec page_num total title)) in
  ret (create_cover_page t page_num total title).

(** ** The program *)

(** [get_page_count(pdf_path)] *)
Definition get_page_count (pdf_path : string) : M nat :=
  try_except
    (let* f := open_rb pdf_path in
     let* pages := reader_pages f in
     ret (length pages))
    (fun e =>
       let* _ := logger_error (MsgErrPageCount pdf_path e) in
       ret 0).

(** [calculate_total_pages(main_pdf, trial_pdfs)] *)
Definition calculate_total_pages (main_pdf : string) (trial_pdfs : list string) : M nat :=
  let* main_pages := get_page_count main_pdf in
  let total := main_pages in
  let* total :=
    for_in trial_pdfs total (fun pdf_path total =>
      let* trial_pages := get_page_count pdf_path in
      ret (total + (trial_pages + 1))) in
  let* _ := logger_info (MsgTotal total) in
  ret total.

(** The body shared by the two page loops of [create_final_report]
    (they differ in their log line only):
    [overlay = create_page_number_overlay(current_page, total_pages, report_title);
     page.merge_page(overlay.pages[0]); writer.add_page(page);
     logger.info(...); current_page += 1]. *)
Definition stamp_page (total : nat) (title : option string)
    (added : nat -> LogMsg) (obj : PageObj) : M unit :=
  let* page := next_page obj in
  let* n := get_current_page in
  let* overlay := call_overlay n total title in
  let* page := merge_page page overlay in
  let* _ := add_page page in
  let* n := get_current_page in
  let* _ := logger_info (added n) in
  let* n := get_current_page in
  set_current_page (n + 1).

(** The [try] block of the main document. *)
Definition process_main (main_pdf : string) (total : nat) (title : option string) : M unit :=
  let* pages := PdfReader main_pdf in
  for_enumerate pages (fun i obj =>
    stamp_page total title (MsgAddedMain (i + 1)) obj).

(** The [try] block of one trial document. *)
Definition process_trial_body (i : nat) (pdf_path t : string)
    (total : nat) (title : option string) : M unit :=
  let* n := get_current_page in
  let* cover_page := call_cover t n total title in
  let* _ := add_page cover_page in
  let* n := get_current_page in
  let* _ := logger_info (MsgCover n) in
  let* n := get_current_page in
  let* _ := set_current_page (n + 1) in
  let* pages := PdfReader pdf_path in
  for_enumerate pages (fun j obj =>
    stamp_page total title (MsgAddedTrial (i + 1) (j + 1)) obj).

(** [if HAS_GUI: messagebox.showerror("Error", ...)] *)
Definition showerror_if_gui (m : LogMsg) : M unit :=
  if HAS_GUI then messagebox_showerror m else ret tt.

(** One iteration of [for i, pdf_path in enumerate(trial_pdfs)]. *)
Definition process_trial (total : nat) (title : option string)
    (i : nat) (pdf_path : string) : M unit :=
  let t := (PosixPath.splitext (PosixPath.basename pdf_path)).1 in
  let* _ := logger_info (MsgTrial (i + 1) t) in
  try_except
    (process_trial_body i pdf_path t total title)
    (fun e =>
       let* _ := logger_error (MsgErrTrial t e) in
       showerror_if_gui (MsgErrTrial t e)).

(** The final [try] block: write, then report success. *)
Definition write_final (output_path : string) : M (option string) :=
  try_except
    (let* _ := write_output output_path in
     let* _ := logger_info (MsgComplete output_path) in
     ret (Some output_path))
    (fun e =>
       let* _ := logger_error (MsgErrWrite e) in
       let* _ := showerror_if_gui (MsgErrWrite e) in
       ret None).

(** [create_final_report(main_pdf, trial_pdfs, output_path, report_title)];
    the result is [Some output_path], or [None] for Python's [None]. *)
Definition create_final_report (main_pdf : string) (trial_pdfs : list string)
    (output_path : string) (title : option string) : M (option string) :=
  let* _ := logger_info MsgStart in
  let* total := calculate_total_pages main_pdf trial_pdfs in
  let* _ := new_writer in
  let* _ := set_current_page 1 in
  let* _ := logger_info (MsgMain (PosixPath.basename main_pdf)) in
  let* returned :=
    try_except
      (let* _ := process_main main_pdf total title in
       ret false)
      (fun e =>
         let* _ := logger_error (MsgErrMain e) in
         let* _ := showerror_if_gui (MsgErrMain e) in
         ret true) in
  if (returned : bool) then ret None
  else
    let* _ := for_enumerate trial_pdfs (process_trial total title) in
    let* _ := logger_info (MsgWriting output_path) in
    write_final output_path.

(** The state in which a run starts: nothing composed, nothing observed. *)
Definition initial (fs : gmap string PdfFile) : State :=
  mkState fs [] 0 [].

(** ** The user-interface functions *)

(** [pick_files_and_title()]; the result is the triple it returns. *)
Definition pick_files_and_title (u : User)
    : U (option string * option (list string) * option string) :=
  if negb HAS_GUI then
    let+ _ := ui_emit (UiLogError MsgNoGui) in
    sys_exit 1
  else
    let+ _ := ui_emit AskMain in
    let main_pdf := askopenfilename u in
    if not_str main_pdf then uret (None, None, None)
    else
      let+ _ := ui_emit AskTrials in
      let trial_pdfs := askopenfilenames u in
      if negb (truthy_list (Some trial_pdfs)) then uret (None, None, None)
      else
        let+ _ := ui_emit AskTitle in
        let report_title := askstring u in
        uret (Some main_pdf, Some trial_pdfs, report_title).

(** The save dialog of [process_files]: the chosen path, or [None] when the
    function returns because the dialog was cancelled. *)
Definition choose_output (u : User) (output_pdf : string) : U (option string) :=
  if HAS_GUI then
    let+ _ := ui_emit (AskSave (PosixPath.basename output_pdf)) in
    let output_pdf := asksaveasfilename u (PosixPath.basename output_pdf) in
    if not_str output_pdf then
      let+ _ := ui_emit (UiLogInfo MsgCancelled) in
      uret None
    else uret (Some output_pdf)
  else uret (Some output_pdf).

(** [process_files()] *)
Definition process_files (u : User) : U unit :=
  let+ picked := pick_files_and_title u in
  let '(main_pdf, trial_pdfs, report_title) := picked in
  if negb (truthy main_pdf) || negb (truthy_list trial_pdfs) then
    ui_emit (UiLogError MsgNoFiles)
  else
    let main_pdf := default "" main_pdf in
    let trial_pdfs := default [] trial_pdfs in
    let '(base, ext) := PosixPath.splitext main_pdf in
    let output_pdf := base +:+ "_WithCovers.pdf" in
    let+ chosen := choose_output u output_pdf in
    match chosen with
    | None => uret tt
    | Some output_pdf =>
        let+ _ := ui_emit (UiLogInfo (MsgMainPdf main_pdf)) in
        let+ _ := ui_emit (UiLogInfo (MsgTrialPdfs (PosixPath.basename <$> trial_pdfs))) in
        let+ _ := ui_emit (UiLogInfo (MsgReportTitle report_title)) in
        let+ _ := ui_emit (CallReport main_pdf trial_pdfs output_pdf report_title) in
        let+ result := lift (create_final_report main_pdf trial_pdfs output_pdf report_title) in
        if truthy result && HAS_GUI then
          let+ _ := ui_emit (AskOpenNow output_pdf) in
          if askyesno u then ui_emit (OpenViewer output_pdf) else uret tt
        else uret tt
    end.

(** [main()]: with a GUI, the welcome window (400x200, centred) whose Start
    button runs [process_files]; without one, [process_files] at once.  The
    modelled [process_files] raises no [Exception]; one raised inside the
    Start callback would be reported by Tk, not by the handler here. *)
Definition main (u : User) : U unit :=
  except_Exception
    (if HAS_GUI then
       let window_width := 400%Z in
       let window_height := 200%Z in
       let x := (winfo_screenwidth u / 2 - window_width / 2)%Z in
       let y := (winfo_screenheight u / 2 - window_height / 2)%Z in
       let+ _ := ui_emit (Welcome x y) in
       if presses_start u then process_files u else uret tt
     else process_files u)
    (fun e =>
       let+ _ := ui_emit (UiLogError (MsgUnexpected e)) in
       let+ _ := (if HAS_GUI then ui_emit (UiShowError (MsgUnexpected e)) else uret tt) in
       sys_exit 1).

(** The application before anything happened. *)
Definition start_app (fs : gmap string PdfFile) : App := mkApp (initial fs) [].

(** ** What a run does, as pure functions of the file system *)

(** The page objects of the document at [path]; none when it cannot be
    opened or parsed. *)
Definition pages_of (fs : gmap string PdfFile) (path : string) : list PageObj :=
  match fs !! path with
  | Some (Pdf pages) => pages
  | _ => []
  end.

(** The exception raised by opening and parsing the document at [path]. *)
Definition open_error (fs : gmap string PdfFile) (path : string) : option Exn :=
  match fs !! path with
  | None => Some (FileNotFoundError path)
  | Some NotPdf => Some PdfReadError
  | Some (Pdf _) => None
  end.

(** The number of pages that can be counted in the document at [path]. *)
Definition page_count (fs : gmap string PdfFile) (path : string) : nat :=
  length (pages_of fs path).

(** The contents of the pages in front of the first unusable one. *)
Fixpoint good_prefix (objs : list PageObj) : list Page :=
  match objs with
  | Good content :: rest => content :: good_prefix rest
  | _ => []
  end.

(** The exception raised by the first unusable page, if there is one. *)
Fixpoint page_error (objs : list PageObj) : option Exn :=
  match objs with
  | [] => None
  | Good _ :: rest => page_error rest
  | BadRead :: _ => Some PageReadError
  | BadMerge _ :: _ => Some MergeError
  end.

(** The exception raised by enumerating the document at [path]. *)
Definition doc_error (fs : gmap string PdfFile) (path : string) : option Exn :=
  match open_error fs path with
  | Some e => Some e
  | None => page_error (pages_of fs path)
  end.

(** A document that loads and enumerates: every page is usable. *)
Definition loads (fs : gmap string PdfFile) (path : string) (contents : list Page) : Prop :=
  fs !! path = Some (Pdf (Good <$> contents)).

(** The title of a trial's cover page. *)
Definition cover_title (pdf_path : string) : string :=
  (PosixPath.splitext (PosixPath.basename pdf_path)).1.

Section Summary.

Variable total : nat.
Variable title : option string.

(** Body pages stamped with consecutive numbers from [n]. *)
Fixpoint stamps (n : nat) (contents : list Page) : list Page :=
  match contents with
  | [] => []
  | c :: rest => merged c (create_page_number_overlay n total title) :: stamps (n + 1) rest
  end.

(** The events of a page loop that starts at index [i] and page number [n]. *)
Fixpoint stamp_events (added : nat -> nat -> LogMsg) (i n : nat) (objs : list PageObj)
    : list Event :=
  match objs with
  | [] => []
  | Good c :: rest =>
      MakeOverlay (mkSpec n total title)
      :: AddPage (merged c (create_page_number_overlay n total title))
      :: LogInfo (added (i + 1) n)
      :: stamp_events added (S i) (n + 1) rest
  | BadMerge _ :: _ => [MakeOverlay (mkSpec n total title)]
  | BadRead :: _ => []
  end.

(** The pages one trial appends when the counter is [n]. *)
Definition trial_pages (fs : gmap string PdfFile) (n : nat) (pdf_path : string) : list Page :=
  create_cover_page (cover_title pdf_path) n total title
  :: stamps (n + 1) (good_prefix (pages_of fs pdf_path)).

(** The events of an [except] block: the error is logged, and shown when
    there is a GUI. *)
Definition error_events (m : LogMsg) : list Event :=
  LogError m :: (if HAS_GUI then [ShowError m] else []).

(** The events of one trial, the [i]-th, when the counter is [n]. *)
Definition trial_events (fs : gmap string PdfFile) (i n : nat) (pdf_path : string) : list Event :=
  let t := cover_title pdf_path in
  [LogInfo (MsgTrial (i + 1) t);
   MakeCover t (mkSpec n total title);
   AddPage (create_cover_page t n total title);
   LogInfo (MsgCover n)]
  ++ match open_error fs pdf_path with
     | Some e => error_events (MsgErrTrial t e)
     | None =>
         stamp_events (MsgAddedTrial (i + 1)) 0 (n + 1) (pages_of fs pdf_path)
         ++ match page_error (pages_of fs pdf_path) with
            | Some e => error_events (MsgErrTrial t e)
            | None => []
            end
     end.

(** The pages of the trial loop when the counter is [n]. *)
Fixpoint trials_pages (fs : gmap string PdfFile) (n : nat) (trial_pdfs : list string) : list Page :=
  match trial_pdfs with
  | [] => []
  | p :: rest =>
      trial_pages fs n p ++ trials_pages fs (n + length (trial_pages fs n p)) rest
  end.

(** The events of the trial loop from index [i] and counter [n]. *)
Fixpoint trials_events (fs : gmap string PdfFile) (i n : nat) (trial_pdfs : list string)
    : list Event :=
  match trial_pdfs with
  | [] => []
  | p :: rest =>
      trial_events fs i n p
      ++ trials_events fs (S i) (n + length (trial_pages fs n p)) rest
  end.

End Summary.

(** The events of [get_page_count]. *)
Definition count_events (fs : gmap string PdfFile) (path : string) : list Event :=
  match open_error fs path with
  | Some e => [LogError (MsgErrPageCount path e)]
  | None => []
  end.

(** [m + sum (ti + 1)]. *)
Definition expected_total (fs : gmap string PdfFile) (main_pdf : string)
    (trial_pdfs : list string) : nat :=
  page_count fs main_pdf + sum_list ((fun p => page_count fs p + 1) <$> trial_pdfs).

(** A state that differs from [s] by pages appended, the counter advanced
    by as many, and events observed. *)
Definition advance (s : State) (pages : list Page) (evs : list Event) : State :=
  mkState (fsys s) (writer s ++ pages) (current_page s + length pages) (trace s ++ evs).

(** The specs of the footers made, in order. *)
Definition spec_of (ev : Event) : option FooterSpec :=
  match ev with
  | MakeOverlay spec => Some spec
  | MakeCover _ spec => Some spec
  | _ => None
  end.

Definition specs_of (evs : list Event) : list FooterSpec := omap spec_of evs.

(** The pages appended, in order. *)
Definition added_of (ev : Event) : option Page :=
  match ev with
  | AddPage p => Some p
  | _ => None
  end.

Definition pages_added (evs : list Event) : list Page := omap added_of evs.

(** ** Descriptions used to state the properties *)

(** The outcome of a block that raises [err], if any, in state [s]. *)
Definition finish (err : option Exn) (s : State) : Res unit :=
  match err with
  | None => Ok tt s
  | Some e => Raise e s
  end.

(** The events up to the start of the main document's [try] block. *)
Definition prologue (fs : gmap string PdfFile) (main_pdf : string)
    (trial_pdfs : list string) : list Event :=
  [LogInfo MsgStart]
  ++ count_events fs main_pdf
  ++ concat (count_events fs <$> trial_pdfs)
  ++ [LogInfo (MsgTotal (expected_total fs main_pdf trial_pdfs));
      LogInfo (MsgMain (PosixPath.basename main_pdf))].

(** The pages appended by the main document's [try] block. *)
Definition main_pages (fs : gmap string PdfFile) (main_pdf : string)
    (total : nat) (title : option string) : list Page :=
  stamps total title 1 (good_prefix (pages_of fs main_pdf)).

(** The events of the main document's [try] block. *)
Definition main_events (fs : gmap string PdfFile) (main_pdf : string)
    (total : nat) (title : option string) : list Event :=
  stamp_events total title MsgAddedMain 0 1 (pages_of fs main_pdf).

(** A whole run of [create_final_report], from the initial state. *)
Definition run (fs : gmap string PdfFile) (main_pdf : string) (trial_pdfs : list string)
    (output_path : string) (title : option string) : Res (option string) :=
  create_final_report main_pdf trial_pdfs output_path title (initial fs).

(** The value a run returns; [None] is Python's [None]. *)
Definition returned (r : Res (option string)) : option string :=
  match r with
  | Ok v _ => v
  | Raise _ _ => None
  end.

(** The events of the last [try] block. *)
Definition write_events (output_path : string) : list Event :=
  match write_fault output_path with
  | None => [LogInfo (MsgComplete output_path)]
  | Some _ => error_events (MsgErrWrite (OSError output_path))
  end.

(** The file system after the last [try] block, for a composed [w]. *)
Definition written (fs : gmap string PdfFile) (output_path : string) (w : list Page)
    : gmap string PdfFile :=
  match write_fault output_path with
  | None => <[output_path := Pdf (Good <$> w)]> fs
  | Some CannotOpen => fs
  | Some FailsMidway => <[output_path := NotPdf]> fs
  end.

(** Events that neither make a footer nor append a page. *)
Definition is_log (ev : Event) : bool :=
  match ev with
  | LogInfo _ | LogError _ | ShowError _ => true
  | _ => false
  end.

(** A footer spec numbered within [lo, hi), for the run's total and title. *)
Definition in_range (total : nat) (title : option string) (lo hi : nat)
    (spec : FooterSpec) : Prop :=
  lo <= page_number spec < hi
  /\ total_pages spec = total /\ report_title spec = title.

(** Every footer made in [evs] is numbered one more than the number of
    pages appended before it, [appended] of them before [evs] starts. *)
Fixpoint counter_consistent (appended : nat) (evs : list Event) : Prop :=
  match evs with
  | [] => True
  | AddPage _ :: rest => counter_consistent (S appended) rest
  | MakeOverlay spec :: rest =>
      page_number spec = appended + 1 /\ counter_consistent appended rest
  | MakeCover _ spec :: rest =>
      page_number spec = appended + 1 /\ counter_consistent appended rest
  | _ :: rest => counter_consistent appended rest
  end.

(** Whether the character [c] occurs in [s]. *)
Fixpoint has_char (c : ascii) (s : string) : bool :=
  match s with
  | EmptyString => false
  | String a s' => Ascii.eqb a c || has_char c s'
  end.

(** The title and footer spec of a cover made. *)
Definition cover_of (ev : Event) : option (string * FooterSpec) :=
  match ev with
  | MakeCover t spec => Some (t, spec)
  | _ => None
  end.

(** The covers made, each with its title and footer spec, in order. *)
Definition covers_of (evs : list Event) : list (string * FooterSpec) := omap cover_of evs.

(** Events other than those of the final write. *)
Definition composing (ev : Event) : bool :=
  match ev with
  | LogInfo (MsgWriting _) | LogInfo (MsgComplete _) => false
  | LogError (MsgErrWrite _) | ShowError (MsgErrWrite _) => false
  | _ => true
  end.

(** What is emitted, before it is numbered: a body page of a source
    document, or the cover page of a trial. *)
Inductive Item :=
| Body (content : Page)
| Cover (t : string).

(** The page emitted for an item that receives page number [n]. *)
Definition render (total : nat) (title : option string) (n : nat) (it : Item) : Page :=
  match it with
  | Body content => merged content (create_page_number_overlay n total title)
  | Cover t => create_cover_page t n total title
  end.

(** Items numbered consecutively from [n], in order. *)
Fixpoint number_from (total : nat) (title : option string) (n : nat) (items : list Item)
    : list Page :=
  match items with
  | [] => []
  | it :: rest => render total title n it :: number_from total title (n + 1) rest
  end.

(** A trial: its cover, then its body pages. *)
Definition trial_items (trial : string * list Page) : list Item :=
  Cover (cover_title trial.1) :: (Body <$> trial.2).

(** All main pages, then each trial in the caller's order. *)
Definition emission_order (main_contents : list Page) (trials : list (string * list Page))
    : list Item :=
  (Body <$> main_contents) ++ concat (trial_items <$> trials).

(** A page that carries page number [n]. *)
Definition numbered (total : nat) (title : option string) (n : nat) (page : Page) : Prop :=
  (exists content, page = merged content (create_page_number_overlay n total title))
  \/ (exists t, page = create_cover_page t n total title).

(** Pages that carry the consecutive numbers from [n]. *)
Fixpoint numbered_from (total : nat) (title : option string) (n : nat) (pages : list Page)
    : Prop :=
  match pages with
  | [] => True
  | page :: rest => numbered total title n page /\ numbered_from total title (n + 1) rest
  end.

(** An error entry of the log. *)
Definition is_error (ev : Event) : bool :=
  match ev with
  | LogError _ => true
  | _ => false
  end.

(** No error was logged. *)
Definition no_errors (evs : list Event) : bool := forallb (fun ev => negb (is_error ev)) evs.

(** How high a primitive reaches on the page: the top of a rectangle, the
    baseline of a text plus its font size, the higher end of a line. *)
Definition prim_top (p : Canvas.Prim) : float :=
  match p with
  | Canvas.Rect _ y _ height _ _ => (y + height)%float
  | Canvas.Text _ y _ _ fontSize _ => (y + fontSize)%float
  | Canvas.Line _ y1 _ y2 _ => if (y1 <=? y2)%float then y2 else y1
  end.

(** A primitive that stays within the footer band of 0.7 inch. *)
Definition in_footer_band (p : Canvas.Prim) : bool :=
  (prim_top p <=? 0.7 * inch)%float.

(** The name [process_files] suggests in the save dialog. *)
Definition suggested_name (main_pdf : string) : string :=
  PosixPath.basename ((PosixPath.splitext main_pdf).1 +:+ "_WithCovers.pdf").

(** ** Running the program *)

Lemma advance_nil s : advance s [] [] = s.
Proof.
  destruct s; unfold advance; simpl.
  by rewrite !app_nil_r Nat.add_0_r.
Qed.

Lemma advance_advance s p1 e1 p2 e2 :
  advance (advance s p1 e1) p2 e2 = advance s (p1 ++ p2) (e1 ++ e2).
Proof.
  unfold advance; simpl.
  by rewrite length_app !app_assoc Nat.add_assoc.
Qed.

Lemma emit_run ev s : emit ev s = Ok tt (advance s [] [ev]).
Proof. unfold emit, advance; simpl. by rewrite app_nil_r Nat.add_0_r. Qed.

Lemma PdfReader_run path s :
  PdfReader path s =
  match open_error (fsys s) path with
  | Some e => Raise e s
  | None => Ok (pages_of (fsys s) path) s
  end.
Proof.
  unfold PdfReader, bind, open_rb, open_error, pages_of.
  destruct (fsys s !! path) as [[|pages]|]; reflexivity.
Qed.

Lemma get_page_count_run path s :
  get_page_count path s =
  Ok (page_count (fsys s) path) (advance s [] (count_events (fsys s) path)).
Proof.
  unfold get_page_count, try_except, bind, open_rb, page_count, count_events,
    open_error, pages_of.
  destruct (fsys s !! path) as [[|pages]|]; simpl;
    unfold advance; simpl; by rewrite ?app_nil_r ?Nat.add_0_r; destruct s.
Qed.

Lemma bind_run {A B} (m : M A) (k : A -> M B) s :
  bind m k s = match m s with
               | Ok a s' => k a s'
               | Raise e s' => Raise e s'
               end.
Proof. reflexivity. Qed.

Lemma try_except_run {A} (m : M A) (h : Exn -> M A) s :
  try_except m h s = match m s with
                     | Ok a s' => Ok a s'
                     | Raise e s' => h e s'
                     end.
Proof. reflexivity. Qed.

Lemma count_loop_run trial_pdfs acc s :
  for_in trial_pdfs acc (fun pdf_path total =>
    let* trial_pages := get_page_count pdf_path in
    ret (total + (trial_pages + 1))) s
  = Ok (acc + sum_list ((fun p => page_count (fsys s) p + 1) <$> trial_pdfs))
       (advance s [] (concat (count_events (fsys s) <$> trial_pdfs))).
Proof.
  revert acc s. induction trial_pdfs as [|p rest IH]; intros acc s; simpl.
  - by rewrite Nat.add_0_r advance_nil.
  - rewrite bind_run bind_run get_page_count_run /ret IH /=.
    rewrite advance_advance /=. f_equal. unfold fmap. lia.
Qed.

Lemma calculate_total_pages_run main_pdf trial_pdfs s :
  calculate_total_pages main_pdf trial_pdfs s
  = Ok (expected_total (fsys s) main_pdf trial_pdfs)
       (advance s []
          (count_events (fsys s) main_pdf
           ++ concat (count_events (fsys s) <$> trial_pdfs)
           ++ [LogInfo (MsgTotal (expected_total (fsys s) main_pdf trial_pdfs))])).
Proof.
  unfold calculate_total_pages.
  rewrite bind_run get_page_count_run bind_run count_loop_run /=.
  rewrite bind_run /logger_info emit_run /ret !advance_advance /=.
  reflexivity.
Qed.

Lemma state_ext s1 s2 :
  fsys s1 = fsys s2 -> writer s1 = writer s2 ->
  current_page s1 = current_page s2 -> trace s1 = trace s2 -> s1 = s2.
Proof. destruct s1, s2; simpl; intros; by subst. Qed.

Ltac state_eq :=
  apply state_ext; simpl;
  rewrite -?app_assoc ?app_nil_r ?length_app ?Nat.add_0_r /=; try done; try lia.

Lemma page_loop_run total title added objs i s :
  for_enumerate_from i objs (fun i obj => stamp_page total title (added (i + 1)) obj) s
  = finish (page_error objs)
      (advance s (stamps total title (current_page s) (good_prefix objs))
                 (stamp_events total title added i (current_page s) objs)).
Proof.
  revert i s. induction objs as [|obj rest IH]; intros i s; simpl.
  - by rewrite advance_nil.
  - rewrite bind_run. destruct obj as [c| |c]; simpl.
    + rewrite IH /=. f_equal. state_eq.
    + by rewrite advance_nil.
    + f_equal. state_eq.
Qed.

Lemma process_main_run main_pdf total title s :
  process_main main_pdf total title s
  = match open_error (fsys s) main_pdf with
    | Some e => Raise e s
    | None =>
        finish (page_error (pages_of (fsys s) main_pdf))
          (advance s
             (stamps total title (current_page s) (good_prefix (pages_of (fsys s) main_pdf)))
             (stamp_events total title MsgAddedMain 0 (current_page s)
                (pages_of (fsys s) main_pdf)))
    end.
Proof.
  unfold process_main. rewrite bind_run PdfReader_run.
  destruct (open_error (fsys s) main_pdf); first done.
  unfold for_enumerate.
  by rewrite (page_loop_run total title MsgAddedMain).
Qed.

Lemma error_events_run m s :
  (let* _ := logger_error m in showerror_if_gui m) s
  = Ok tt (advance s [] (error_events m)).
Proof.
  unfold error_events, showerror_if_gui, logger_error, messagebox_showerror.
  rewrite bind_run emit_run. destruct HAS_GUI; last done.
  by rewrite emit_run advance_advance.
Qed.

Lemma error_events_then {A} m (k : M A) s :
  (let* _ := logger_error m in let* _ := showerror_if_gui m in k) s
  = k (advance s [] (error_events m)).
Proof.
  unfold error_events, showerror_if_gui, logger_error, messagebox_showerror.
  rewrite bind_run emit_run bind_run. destruct HAS_GUI; last done.
  by rewrite emit_run advance_advance.
Qed.

Lemma process_trial_body_run total title i pdf_path t s :
  process_trial_body i pdf_path t total title s
  = let s1 := advance s [create_cover_page t (current_page s) total title]
                [MakeCover t (mkSpec (current_page s) total title);
                 AddPage (create_cover_page t (current_page s) total title);
                 LogInfo (MsgCover (current_page s))] in
    match open_error (fsys s) pdf_path with
    | Some e => Raise e s1
    | None =>
        finish (page_error (pages_of (fsys s) pdf_path))
          (advance s1
             (stamps total title (current_page s + 1) (good_prefix (pages_of (fsys s) pdf_path)))
             (stamp_events total title (MsgAddedTrial (i + 1)) 0 (current_page s + 1)
                (pages_of (fsys s) pdf_path)))
    end.
Proof.
  rewrite /process_trial_body /bind /call_cover /bind /emit /add_page /logger_info /emit
    /get_current_page /set_current_page /ret /=.
  rewrite PdfReader_run /=.
  destruct (open_error (fsys s) pdf_path) as [e|].
  - f_equal. state_eq.
  - rewrite /for_enumerate (page_loop_run total title (MsgAddedTrial (i + 1))) /=.
    f_equal. state_eq.
Qed.

Lemma process_trial_run total title i pdf_path s :
  process_trial total title i pdf_path s
  = Ok tt (advance s (trial_pages total title (fsys s) (current_page s) pdf_path)
                     (trial_events total title (fsys s) i (current_page s) pdf_path)).
Proof.
  unfold process_trial, trial_pages, trial_events.
  fold (cover_title pdf_path).
  rewrite bind_run /logger_info emit_run try_except_run process_trial_body_run /=.
  rewrite !Nat.add_0_r.
  destruct (open_error (fsys s) pdf_path) as [e|] eqn:Hopen.
  - rewrite error_events_run. f_equal.
    unfold pages_of, open_error in *.
    destruct (fsys s !! pdf_path) as [[|pages]|]; try done; state_eq.
  - destruct (page_error (pages_of (fsys s) pdf_path)) as [e|]; simpl.
    + rewrite error_events_run. f_equal. state_eq.
    + f_equal. state_eq.
Qed.

Lemma trial_loop_run total title trial_pdfs i s :
  for_enumerate_from i trial_pdfs (process_trial total title) s
  = Ok tt (advance s (trials_pages total title (fsys s) (current_page s) trial_pdfs)
                     (trials_events total title (fsys s) i (current_page s) trial_pdfs)).
Proof.
  revert i s. induction trial_pdfs as [|p rest IH]; intros i s; simpl.
  - by rewrite advance_nil.
  - rewrite bind_run process_trial_run IH /=. by rewrite advance_advance.
Qed.

Lemma write_final_run output_path s :
  write_final output_path s
  = match write_fault output_path with
    | None =>
        Ok (Some output_path)
           (mkState (<[output_path := Pdf (Good <$> writer s)]> (fsys s))
                    (writer s) (current_page s)
                    (trace s ++ [LogInfo (MsgComplete output_path)]))
    | Some f =>
        Ok None
           (mkState (match f with
                     | CannotOpen => fsys s
                     | FailsMidway => <[output_path := NotPdf]> (fsys s)
                     end)
                    (writer s) (current_page s)
                    (trace s ++ error_events (MsgErrWrite (OSError output_path))))
    end.
Proof.
  rewrite /write_final try_except_run bind_run /write_output.
  destruct (write_fault output_path) as [[|]|].
  - rewrite error_events_then /=. f_equal. state_eq.
  - rewrite error_events_then /=. f_equal. state_eq.
  - rewrite bind_run /logger_info emit_run /=. f_equal. state_eq.
Qed.

Lemma run_eq fs main_pdf trial_pdfs output_path title :
  let total := expected_total fs main_pdf trial_pdfs in
  let s1 := mkState fs [] 1 (prologue fs main_pdf trial_pdfs) in
  let mp := main_pages fs main_pdf total title in
  let me := main_events fs main_pdf total title in
  run fs main_pdf trial_pdfs output_path title
  = match doc_error fs main_pdf with
    | Some e => Ok None (advance s1 mp (me ++ error_events (MsgErrMain e)))
    | None =>
        write_final output_path
          (advance s1
             (mp ++ trials_pages total title fs (1 + length mp) trial_pdfs)
             (me ++ trials_events total title fs 0 (1 + length mp) trial_pdfs
                 ++ [LogInfo (MsgWriting output_path)]))
    end.
Proof.
  intros total s1 mp me.
  rewrite /run /create_final_report bind_run /logger_info emit_run.
  rewrite bind_run calculate_total_pages_run /=.
  fold total.
  rewrite bind_run /new_writer /= bind_run /set_current_page /= bind_run emit_run /=.
  rewrite bind_run try_except_run bind_run process_main_run /=.
  unfold doc_error.
  match goal with
  | |- context [advance ?X [] [LogInfo (MsgMain ?b)]] =>
      assert (Hs1 : advance X [] [LogInfo (MsgMain b)] = s1)
        by (subst s1; rewrite /prologue; fold total; state_eq);
      rewrite !Hs1
  end.
  fold mp. fold (main_events fs main_pdf total title). fold me.
  destruct (open_error fs main_pdf) as [e|] eqn:Hopen.
  - rewrite error_events_then /=. f_equal.
    subst mp me. rewrite /main_pages /main_events.
    unfold pages_of, open_error in *.
    destruct (fs !! main_pdf) as [[|pages]|]; try done; state_eq.
  - destruct (page_error (pages_of fs main_pdf)) as [e|]; simpl.
    + rewrite error_events_then /=. f_equal. state_eq.
    + rewrite bind_run /for_enumerate trial_loop_run /=.
      rewrite bind_run emit_run /=. f_equal. state_eq.
Qed.

(** The final state of a run whose main document fails with [e]. *)
Lemma run_main_fails fs main_pdf trial_pdfs output_path title e :
  doc_error fs main_pdf = Some e ->
  let total := expected_total fs main_pdf trial_pdfs in
  run fs main_pdf trial_pdfs output_path title
  = Ok None
      (mkState fs
         (main_pages fs main_pdf total title)
         (1 + length (main_pages fs main_pdf total title))
         (prologue fs main_pdf trial_pdfs
          ++ main_events fs main_pdf total title
          ++ error_events (MsgErrMain e))).
Proof.
  intros He total. pose proof (run_eq fs main_pdf trial_pdfs output_path title) as Hrun.
  simpl in Hrun. rewrite He in Hrun. rewrite Hrun. by f_equal.
Qed.

(** The final state of a run whose main document loads and enumerates. *)
Lemma run_main_ok fs main_pdf trial_pdfs output_path title :
  doc_error fs main_pdf = None ->
  let total := expected_total fs main_pdf trial_pdfs in
  let mp := main_pages fs main_pdf total title in
  let w := mp ++ trials_pages total title fs (1 + length mp) trial_pdfs in
  run fs main_pdf trial_pdfs output_path title
  = Ok (match write_fault output_path with None => Some output_path | Some _ => None end)
      (mkState (written fs output_path w) w (1 + length w)
         (prologue fs main_pdf trial_pdfs
          ++ main_events fs main_pdf total title
          ++ trials_events total title fs 0 (1 + length mp) trial_pdfs
          ++ [LogInfo (MsgWriting output_path)]
          ++ write_events output_path)).
Proof.
  intros He total mp w. pose proof (run_eq fs main_pdf trial_pdfs output_path title) as Hrun.
  simpl in Hrun. rewrite He in Hrun. rewrite Hrun write_final_run.
  unfold written, write_events. subst w mp total.
  destruct (write_fault output_path) as [[|]|]; f_equal; state_eq.
Qed.

(** ** Facts about the pure descriptions *)

Lemma sum_list_cons (x : nat) (l : list nat) : sum_list (x :: l) = x + sum_list l.
Proof. reflexivity. Qed.

Arguments error_events : simpl never.
Arguments trial_events : simpl never.
Arguments trial_pages : simpl never.

Lemma good_prefix_Good contents : good_prefix (Good <$> contents) = contents.
Proof. induction contents as [|c rest IH]; simpl; by rewrite ?IH. Qed.

Lemma page_error_Good contents : page_error (Good <$> contents) = None.
Proof. by induction contents. Qed.

Lemma page_error_None objs : page_error objs = None -> objs = Good <$> good_prefix objs.
Proof.
  induction objs as [|[c| |c] rest IH]; simpl; intros H; try done.
  f_equal. by apply IH.
Qed.

Lemma length_good_prefix objs : length (good_prefix objs) <= length objs.
Proof. induction objs as [|[c| |c] rest IH]; simpl; lia. Qed.

Lemma loads_pages_of fs path contents :
  loads fs path contents -> pages_of fs path = Good <$> contents.
Proof. unfold loads, pages_of. by intros ->. Qed.

Lemma loads_open_error fs path contents :
  loads fs path contents -> open_error fs path = None.
Proof. unfold loads, open_error. by intros ->. Qed.

Lemma loads_doc_error fs path contents :
  loads fs path contents -> doc_error fs path = None.
Proof.
  intros H. unfold doc_error.
  by rewrite (loads_open_error _ _ _ H) (loads_pages_of _ _ _ H) page_error_Good.
Qed.

Lemma loads_page_count fs path contents :
  loads fs path contents -> page_count fs path = length contents.
Proof. intros H. by rewrite /page_count (loads_pages_of _ _ _ H) length_fmap. Qed.

Lemma doc_error_None fs path :
  doc_error fs path = None -> loads fs path (good_prefix (pages_of fs path)).
Proof.
  unfold doc_error, open_error, pages_of, loads.
  destruct (fs !! path) as [[|pages]|]; try done.
  intros H. by rewrite -(page_error_None _ H).
Qed.

Lemma length_stamps total title n contents :
  length (stamps total title n contents) = length contents.
Proof. revert n. induction contents as [|c rest IH]; intros n; simpl; by rewrite ?IH. Qed.

Lemma length_trial_pages total title fs n path :
  length (trial_pages total title fs n path)
  = S (length (good_prefix (pages_of fs path))).
Proof. by rewrite /trial_pages /= length_stamps. Qed.

Lemma trials_pages_cons total title fs n p rest :
  trials_pages total title fs n (p :: rest)
  = trial_pages total title fs n p
    ++ trials_pages total title fs (n + length (trial_pages total title fs n p)) rest.
Proof. reflexivity. Qed.

Lemma trials_events_cons total title fs i n p rest :
  trials_events total title fs i n (p :: rest)
  = trial_events total title fs i n p
    ++ trials_events total title fs (S i) (n + length (trial_pages total title fs n p)) rest.
Proof. reflexivity. Qed.

Lemma length_trials_pages_le total title fs n trial_pdfs :
  length (trials_pages total title fs n trial_pdfs)
  <= sum_list ((fun p => page_count fs p + 1) <$> trial_pdfs).
Proof.
  revert n. induction trial_pdfs as [|p rest IH]; intros n; first done.
  rewrite trials_pages_cons length_app length_trial_pages fmap_cons sum_list_cons.
  pose proof (length_good_prefix (pages_of fs p)).
  specialize (IH (n + S (length (good_prefix (pages_of fs p))))).
  unfold page_count in *. lia.
Qed.

Lemma length_main_pages_le fs main_pdf total title :
  length (main_pages fs main_pdf total title) <= page_count fs main_pdf.
Proof. rewrite /main_pages length_stamps. apply length_good_prefix. Qed.

Lemma specs_of_app a b : specs_of (a ++ b) = specs_of a ++ specs_of b.
Proof. apply omap_app. Qed.

Lemma pages_added_app a b : pages_added (a ++ b) = pages_added a ++ pages_added b.
Proof. apply omap_app. Qed.

Lemma specs_of_logs evs : Forall is_log evs -> specs_of evs = [].
Proof. induction 1 as [|[] evs H _ IH]; simpl in *; done. Qed.

Lemma pages_added_logs evs : Forall is_log evs -> pages_added evs = [].
Proof. induction 1 as [|[] evs H _ IH]; simpl in *; done. Qed.

Lemma error_events_logs m : Forall is_log (error_events m).
Proof. unfold error_events. destruct HAS_GUI; repeat constructor. Qed.

Lemma count_events_logs fs path : Forall is_log (count_events fs path).
Proof. unfold count_events. destruct (open_error fs path); repeat constructor. Qed.

Lemma prologue_logs fs main_pdf trial_pdfs : Forall is_log (prologue fs main_pdf trial_pdfs).
Proof.
  unfold prologue. rewrite !Forall_app. repeat split.
  - repeat constructor.
  - apply count_events_logs.
  - induction trial_pdfs as [|p rest IH]; simpl; first constructor.
    rewrite Forall_app. split; [apply count_events_logs | apply IH].
  - repeat constructor.
Qed.

Lemma total_logged fs main_pdf trial_pdfs :
  LogInfo (MsgTotal (expected_total fs main_pdf trial_pdfs))
  ∈ prologue fs main_pdf trial_pdfs.
Proof.
  unfold prologue. do 3 (apply elem_of_app; right). apply list_elem_of_here.
Qed.

Lemma write_events_logs output_path :
  Forall is_log ([LogInfo (MsgWriting output_path)] ++ write_events output_path).
Proof.
  unfold write_events. constructor; first done.
  destruct (write_fault output_path); [apply error_events_logs | repeat constructor].
Qed.

(** *** The pages appended are the pages of the writer *)

Lemma pages_added_stamp_events total title added i n objs :
  pages_added (stamp_events total title added i n objs)
  = stamps total title n (good_prefix objs).
Proof.
  revert i n. induction objs as [|[c| |c] rest IH]; intros i n; simpl; try done.
  by rewrite IH.
Qed.

Lemma pages_added_trial_events total title fs i n path :
  pages_added (trial_events total title fs i n path) = trial_pages total title fs n path.
Proof.
  unfold trial_events, trial_pages.
  rewrite pages_added_app. apply (f_equal (cons _)).
  unfold open_error, pages_of.
  destruct (fs !! path) as [[|pages]|].
  - apply pages_added_logs, error_events_logs.
  - rewrite pages_added_app pages_added_stamp_events pages_added_logs ?app_nil_r //.
    destruct (page_error pages); [apply error_events_logs | constructor].
  - apply pages_added_logs, error_events_logs.
Qed.

Lemma pages_added_trials_events total title fs i n trial_pdfs :
  pages_added (trials_events total title fs i n trial_pdfs)
  = trials_pages total title fs n trial_pdfs.
Proof.
  revert i n. induction trial_pdfs as [|p rest IH]; intros i n; first done.
  by rewrite trials_events_cons trials_pages_cons pages_added_app
       pages_added_trial_events IH.
Qed.

(** *** The footers made *)

Lemma in_range_weaken total title lo hi lo' hi' specs :
  lo' <= lo -> hi <= hi' ->
  Forall (in_range total title lo hi) specs ->
  Forall (in_range total title lo' hi') specs.
Proof.
  intros Hlo Hhi H. eapply Forall_impl; first exact H.
  intros spec (Hn & Ht & Hr). repeat split; try done; lia.
Qed.

Lemma specs_stamp_events_range total title added i n objs :
  Forall (in_range total title n (n + length objs))
         (specs_of (stamp_events total title added i n objs)).
Proof.
  revert i n. induction objs as [|[c| |c] rest IH]; intros i n; simpl.
  - constructor.
  - constructor.
    + repeat split; simpl; lia.
    + eapply in_range_weaken; last apply (IH (S i) (n + 1)); lia.
  - constructor.
  - constructor; last constructor. repeat split; simpl; lia.
Qed.

Lemma specs_trial_events_range total title fs i n path :
  Forall (in_range total title n (n + (page_count fs path + 1)))
         (specs_of (trial_events total title fs i n path)).
Proof.
  unfold trial_events. rewrite specs_of_app.
  apply Forall_app; split.
  - simpl. constructor; last constructor. repeat split; simpl; lia.
  - unfold page_count.
    destruct (open_error fs path) as [e|].
    + rewrite specs_of_logs; [apply error_events_logs | constructor].
    + rewrite specs_of_app (specs_of_logs (match page_error _ with Some e => _ | None => _ end)).
      * destruct (page_error (pages_of fs path)); [apply error_events_logs | constructor].
      * rewrite app_nil_r.
        eapply in_range_weaken; last apply specs_stamp_events_range; lia.
Qed.

Lemma specs_trials_events_range total title fs i n trial_pdfs :
  Forall (in_range total title n
            (n + sum_list ((fun p => page_count fs p + 1) <$> trial_pdfs)))
         (specs_of (trials_events total title fs i n trial_pdfs)).
Proof.
  revert i n. induction trial_pdfs as [|p rest IH]; intros i n; first constructor.
  rewrite trials_events_cons specs_of_app fmap_cons sum_list_cons.
  apply Forall_app; split.
  - eapply in_range_weaken; last apply specs_trial_events_range; lia.
  - eapply in_range_weaken; last apply IH.
    + lia.
    + rewrite length_trial_pages.
      pose proof (length_good_prefix (pages_of fs p)). unfold page_count in *. lia.
Qed.

Lemma specs_stamp_events_Good total title added i n contents :
  specs_of (stamp_events total title added i n (Good <$> contents))
  = (fun k => mkSpec k total title) <$> seq n (length contents).
Proof.
  revert i n. induction contents as [|c rest IH]; intros i n; simpl; first done.
  by rewrite IH Nat.add_1_r.
Qed.

Lemma specs_trial_events_loads total title fs i n path contents :
  loads fs path contents ->
  specs_of (trial_events total title fs i n path)
  = (fun k => mkSpec k total title) <$> seq n (length contents + 1).
Proof.
  intros H. unfold trial_events.
  rewrite (loads_open_error _ _ _ H) (loads_pages_of _ _ _ H) page_error_Good.
  rewrite !specs_of_app specs_stamp_events_Good /= app_nil_r.
  by rewrite Nat.add_1_r (Nat.add_1_r (length contents)).
Qed.

Lemma length_trial_pages_loads total title fs n path contents :
  loads fs path contents ->
  length (trial_pages total title fs n path) = length contents + 1.
Proof.
  intros H. rewrite length_trial_pages (loads_pages_of _ _ _ H) good_prefix_Good. lia.
Qed.

Lemma specs_trials_events_loads total title fs i n trial_pdfs contents :
  Forall2 (loads fs) trial_pdfs contents ->
  specs_of (trials_events total title fs i n trial_pdfs)
  = (fun k => mkSpec k total title)
    <$> seq n (sum_list ((fun p => page_count fs p + 1) <$> trial_pdfs)).
Proof.
  intros H. revert i n. induction H as [|p cs rest css Hp _ IH]; intros i n; first done.
  rewrite trials_events_cons specs_of_app fmap_cons sum_list_cons.
  rewrite (specs_trial_events_loads _ _ _ _ _ _ _ Hp) IH.
  rewrite (length_trial_pages_loads _ _ _ _ _ _ Hp) (loads_page_count _ _ _ Hp).
  by rewrite -fmap_app -seq_app.
Qed.

Lemma length_trials_pages_loads total title fs n trial_pdfs contents :
  Forall2 (loads fs) trial_pdfs contents ->
  length (trials_pages total title fs n trial_pdfs)
  = sum_list ((fun p => page_count fs p + 1) <$> trial_pdfs).
Proof.
  intros H. revert n. induction H as [|p cs rest css Hp _ IH]; intros n; first done.
  rewrite trials_pages_cons length_app fmap_cons sum_list_cons IH.
  by rewrite (length_trial_pages_loads _ _ _ _ _ _ Hp) (loads_page_count _ _ _ Hp).
Qed.

(** *** The counter and the pages appended *)

Lemma counter_consistent_app k a b :
  counter_consistent k (a ++ b)
  <-> counter_consistent k a /\ counter_consistent (k + length (pages_added a)) b.
Proof.
  revert k. induction a as [|ev a IH]; intros k; simpl.
  - rewrite Nat.add_0_r. tauto.
  - destruct ev; simpl; rewrite ?IH ?Nat.add_succ_r; tauto.
Qed.

Lemma counter_consistent_logs k evs : Forall is_log evs -> counter_consistent k evs.
Proof. induction 1 as [|[] evs H _ IH]; simpl in *; done. Qed.

Lemma counter_consistent_stamp_events total title added i k objs :
  counter_consistent k (stamp_events total title added i (k + 1) objs).
Proof.
  revert i k. induction objs as [|[c| |c] rest IH]; intros i k; simpl; try done.
  split; first done.
  replace (k + 1 + 1) with (S k + 1) by lia. apply IH.
Qed.

Lemma counter_consistent_trial_events total title fs i k path :
  counter_consistent k (trial_events total title fs i (k + 1) path).
Proof.
  unfold trial_events. apply counter_consistent_app; split.
  - simpl. done.
  - simpl.
    destruct (open_error fs path) as [e|].
    + apply counter_consistent_logs, error_events_logs.
    + apply counter_consistent_app; split.
      * apply counter_consistent_stamp_events.
      * apply counter_consistent_logs.
        destruct (page_error (pages_of fs path)); [apply error_events_logs | constructor].
Qed.

Lemma counter_consistent_trials_events total title fs i k trial_pdfs :
  counter_consistent k (trials_events total title fs i (k + 1) trial_pdfs).
Proof.
  revert i k. induction trial_pdfs as [|p rest IH]; intros i k; first done.
  rewrite trials_events_cons. apply counter_consistent_app; split.
  - apply counter_consistent_trial_events.
  - rewrite pages_added_trial_events.
    replace (k + 1 + length (trial_pages total title fs (k + 1) p))
      with (k + length (trial_pages total title fs (k + 1) p) + 1) by lia.
    apply IH.
Qed.

(** ** Facts about paths *)

Lemma append_empty_r (s : string) : s +:+ "" = s.
Proof. unfold String.app. induction s as [|a s IH]; simpl; by rewrite ?IH. Qed.

Lemma take_str_append (pre s : string) : PosixPath.take_str (String.length pre) (pre +:+ s) = pre.
Proof.
  unfold String.app. induction pre as [|a pre IH]; simpl; [by destruct s | by rewrite IH].
Qed.

Lemma drop_str_append (pre s : string) : PosixPath.drop_str (String.length pre) (pre +:+ s) = s.
Proof. unfold String.app. induction pre as [|a pre IH]; simpl; done. Qed.

Lemma drop_str_append_cons (pre : string) (c : ascii) (post : string) :
  PosixPath.drop_str (S (String.length pre)) (pre +:+ String c post) = post.
Proof. unfold String.app. induction pre as [|a pre IH]; simpl; done. Qed.

Lemma append_cons_assoc (pre : string) (c : ascii) (post : string) :
  pre +:+ String c post = (pre +:+ String c "") +:+ post.
Proof. unfold String.app. induction pre as [|a pre IH]; simpl; by rewrite -?IH. Qed.

(** [rfind] finds nothing in a string without the character, and else
    splits the string at its last occurrence. *)
Lemma rfind_from_spec (c : ascii) (s : string) (i : Z) :
  (0 <= i)%Z ->
  (PosixPath.rfind_from c s i = (-1)%Z /\ has_char c s = false)
  \/ (exists pre post,
        s = pre +:+ String c post
        /\ PosixPath.rfind_from c s i = (i + Z.of_nat (String.length pre))%Z
        /\ has_char c post = false).
Proof.
  revert i. induction s as [|a s IH]; intros i Hi; simpl.
  - by left.
  - destruct (IH (i + 1)%Z ltac:(lia)) as [[Hr Hc] | (pre & post & -> & Hr & Hc)].
    + rewrite Hr Hc /=. destruct (Ascii.eqb_spec a c) as [->|Hne].
      * right. exists "", s. simpl. split; first done. split; [lia | done].
      * left. by rewrite orb_false_r.
    + right. exists (String a pre), post. rewrite Hr. simpl.
      split; first done. split; last done.
      destruct (0 <=? i + 1 + Z.of_nat (String.length pre))%Z eqn:Hle; lia.
Qed.

Lemma rfind_spec (c : ascii) (s : string) :
  (PosixPath.rfind c s = (-1)%Z /\ has_char c s = false)
  \/ (exists pre post,
        s = pre +:+ String c post
        /\ PosixPath.rfind c s = Z.of_nat (String.length pre)
        /\ has_char c post = false).
Proof.
  destruct (rfind_from_spec c s 0 ltac:(lia)) as [H | (pre & post & H1 & H2 & H3)].
  - by left.
  - right. exists pre, post. by rewrite -> Z.add_0_l in H2.
Qed.

(** [basename] strips a directory prefix that is empty or ends with a
    slash, and what is left has no slash. *)
Lemma basename_spec (p : string) :
  exists dir,
    p = dir +:+ PosixPath.basename p
    /\ (dir = "" \/ exists d, dir = d +:+ "/")
    /\ has_char "/" (PosixPath.basename p) = false.
Proof.
  unfold PosixPath.basename.
  destruct (rfind_spec PosixPath.sep p) as [[Hr Hc] | (pre & post & Hp & Hr & Hc)];
    rewrite Hr.
  - exists "". simpl. auto.
  - exists (pre +:+ "/").
    replace (Z.to_nat (Z.of_nat (String.length pre) + 1)) with (S (String.length pre)) by lia.
    subst p. rewrite drop_str_append_cons.
    split; last (split; [right; by exists pre | done]).
    apply append_cons_assoc.
Qed.

(** [splitext] splits a name into a root and an extension that is empty
    or is the last dot of the name with what follows it. *)
Lemma splitext_spec (p : string) :
  p = (PosixPath.splitext p).1 +:+ (PosixPath.splitext p).2
  /\ ((PosixPath.splitext p).2 = ""
      \/ exists e, (PosixPath.splitext p).2 = String "." e /\ has_char "." e = false).
Proof.
  unfold PosixPath.splitext.
  destruct (PosixPath.rfind PosixPath.sep p <? PosixPath.rfind PosixPath.extsep p)%Z eqn:Hlt;
    last (simpl; rewrite append_empty_r; auto).
  destruct (PosixPath.has_non_dot _ _ _);
    last (simpl; rewrite append_empty_r; auto).
  simpl.
  destruct (rfind_spec PosixPath.extsep p) as [[Hr Hc] | (pre & post & Hp & Hr & Hc)].
  - destruct (rfind_spec PosixPath.sep p) as [[Hs _] | (pre' & post' & _ & Hs & _)]; lia.
  - rewrite Hr Nat2Z.id. subst p. rewrite take_str_append drop_str_append.
    split; first done. right. by exists post.
Qed.

(** *** Covers *)

Lemma covers_of_app a b : covers_of (a ++ b) = covers_of a ++ covers_of b.
Proof. apply omap_app. Qed.

Lemma covers_of_logs evs : Forall is_log evs -> covers_of evs = [].
Proof. induction 1 as [|[] evs H _ IH]; simpl in *; done. Qed.

Lemma covers_of_stamp_events total title added i n objs :
  covers_of (stamp_events total title added i n objs) = [].
Proof.
  revert i n. induction objs as [|[c| |c] rest IH]; intros i n; simpl; done.
Qed.

Lemma covers_of_trial_events total title fs i n path :
  covers_of (trial_events total title fs i n path)
  = [(cover_title path, mkSpec n total title)].
Proof.
  unfold trial_events. rewrite covers_of_app. apply (f_equal (cons _)).
  destruct (open_error fs path) as [e|].
  - apply covers_of_logs, error_events_logs.
  - rewrite covers_of_app covers_of_stamp_events covers_of_logs //.
    destruct (page_error (pages_of fs path)); [apply error_events_logs | constructor].
Qed.

(** *** Events of the composing phases *)

Lemma composing_error_events m :
  composing (LogError m) -> Forall composing (error_events m).
Proof.
  intros H. unfold error_events. constructor; first done.
  destruct HAS_GUI; constructor; last constructor. by destruct m.
Qed.

Lemma composing_prologue fs main_pdf trial_pdfs :
  Forall composing (prologue fs main_pdf trial_pdfs).
Proof.
  assert (Hc : forall path, Forall composing (count_events fs path)).
  { intros path. unfold count_events. destruct (open_error fs path); repeat constructor. }
  unfold prologue. rewrite !Forall_app. repeat split; try apply Hc.
  - repeat constructor.
  - induction trial_pdfs as [|p rest IH]; simpl; first constructor.
    rewrite Forall_app. split; [apply Hc | apply IH].
  - repeat constructor.
Qed.

Lemma composing_stamp_events total title added i n objs :
  (forall j k, composing (LogInfo (added j k))) ->
  Forall composing (stamp_events total title added i n objs).
Proof.
  intros Hadd. revert i n.
  induction objs as [|[c| |c] rest IH]; intros i n; simpl.
  - constructor.
  - constructor; first done. constructor; first done.
    constructor; [apply Hadd | apply IH].
  - constructor.
  - by constructor.
Qed.

Lemma composing_trial_events total title fs i n path :
  Forall composing (trial_events total title fs i n path).
Proof.
  unfold trial_events. apply Forall_app; split; first repeat constructor.
  destruct (open_error fs path) as [e|].
  - by apply composing_error_events.
  - apply Forall_app; split.
    + by apply composing_stamp_events.
    + destruct (page_error (pages_of fs path)); [by apply composing_error_events | constructor].
Qed.

Lemma composing_trials_events total title fs i n trial_pdfs :
  Forall composing (trials_events total title fs i n trial_pdfs).
Proof.
  revert i n. induction trial_pdfs as [|p rest IH]; intros i n; first constructor.
  rewrite trials_events_cons. apply Forall_app; split.
  - apply composing_trial_events.
  - apply IH.
Qed.

Lemma not_composing_not_in ev evs :
  Forall composing evs -> composing ev = false -> ev ∉ evs.
Proof.
  intros Hall Hev Hin. rewrite -> Forall_forall in Hall.
  specialize (Hall ev Hin). by rewrite Hev in Hall.
Qed.

Lemma error_events_log m : LogError m ∈ error_events m.
Proof. unfold error_events. apply list_elem_of_here. Qed.

Lemma error_events_show m : HAS_GUI = true -> ShowError m ∈ error_events m.
Proof.
  intros Hg. unfold error_events. rewrite Hg.
  apply list_elem_of_further, list_elem_of_here.
Qed.

Lemma error_events_inv ev m : ev ∈ error_events m -> ev = LogError m \/ ev = ShowError m.
Proof.
  unfold error_events. rewrite elem_of_cons. intros [H|H]; first by left.
  right. destruct HAS_GUI.
  - by apply list_elem_of_singleton in H.
  - by apply elem_of_nil in H.
Qed.

Lemma open_error_pages_of fs path :
  open_error fs path <> None -> pages_of fs path = [].
Proof. unfold open_error, pages_of. by destruct (fs !! path) as [[|pages]|]. Qed.

(** *** Emission order *)

Lemma number_from_app total title n a b :
  number_from total title n (a ++ b)
  = number_from total title n a ++ number_from total title (n + length a) b.
Proof.
  revert n. induction a as [|it a IH]; intros n; simpl.
  - by rewrite Nat.add_0_r.
  - rewrite IH. do 3 f_equal. lia.
Qed.

Lemma length_number_from total title n items :
  length (number_from total title n items) = length items.
Proof. revert n. induction items as [|it rest IH]; intros n; simpl; by rewrite ?IH. Qed.

Lemma number_from_lookup total title n items k :
  number_from total title n items !! k = render total title (n + k) <$> items !! k.
Proof.
  revert n k. induction items as [|it rest IH]; intros n [|k]; simpl; try done.
  - by rewrite Nat.add_0_r.
  - rewrite IH. do 2 f_equal. lia.
Qed.

Lemma stamps_number_from total title n contents :
  stamps total title n contents = number_from total title n (Body <$> contents).
Proof. revert n. induction contents as [|c rest IH]; intros n; simpl; by rewrite ?IH. Qed.

Lemma trial_pages_loads total title fs n path contents :
  loads fs path contents ->
  trial_pages total title fs n path = number_from total title n (trial_items (path, contents)).
Proof.
  intros H. unfold trial_pages, trial_items.
  by rewrite (loads_pages_of _ _ _ H) good_prefix_Good stamps_number_from.
Qed.

Lemma trials_pages_loads total title fs n trial_pdfs contents :
  Forall2 (loads fs) trial_pdfs contents ->
  trials_pages total title fs n trial_pdfs
  = number_from total title n (concat (trial_items <$> zip trial_pdfs contents)).
Proof.
  intros H. revert n. induction H as [|p cs rest css Hp _ IH]; intros n; first done.
  rewrite trials_pages_cons IH (trial_pages_loads _ _ _ _ _ _ Hp).
  change (zip (p :: rest) (cs :: css)) with ((p, cs) :: zip rest css).
  rewrite fmap_cons concat_cons number_from_app.
  by rewrite length_number_from.
Qed.

Lemma numbered_from_app total title n a b :
  numbered_from total title n (a ++ b)
  <-> numbered_from total title n a /\ numbered_from total title (n + length a) b.
Proof.
  revert n. induction a as [|page a IH]; intros n; simpl.
  - rewrite Nat.add_0_r. tauto.
  - rewrite IH. replace (n + 1 + length a) with (n + S (length a)) by lia. tauto.
Qed.

Lemma numbered_from_lookup total title n pages k page :
  numbered_from total title n pages -> pages !! k = Some page ->
  numbered total title (n + k) page.
Proof.
  revert n k. induction pages as [|q rest IH]; intros n [|k]; simpl; try done.
  - intros [H _] [= ->]. by rewrite Nat.add_0_r.
  - intros [_ H] Hk. replace (n + S k) with (n + 1 + k) by lia. by apply IH.
Qed.

Lemma stamps_numbered total title n contents :
  numbered_from total title n (stamps total title n contents).
Proof.
  revert n. induction contents as [|c rest IH]; intros n; simpl; first done.
  split; last apply IH. left. by exists c.
Qed.

Lemma trial_pages_numbered total title fs n path :
  numbered_from total title n (trial_pages total title fs n path).
Proof.
  unfold trial_pages. split; last apply stamps_numbered.
  right. by eexists.
Qed.

Lemma trials_pages_numbered total title fs n trial_pdfs :
  numbered_from total title n (trials_pages total title fs n trial_pdfs).
Proof.
  revert n. induction trial_pdfs as [|p rest IH]; intros n; first done.
  rewrite trials_pages_cons. apply numbered_from_app; split.
  - apply trial_pages_numbered.
  - apply IH.
Qed.

(** ** Properties *)

(** C6. The footer painted by [create_cover_page] is the footer produced by
    [create_page_number_overlay] for the same page number, total and report
    title: the display list of a cover page is its title line followed by
    exactly the display list of the overlay (the same white band, optional
    report title, centred page text and separator line, with the same
    coordinates, fonts and colours). *)
Theorem cover_footer_is_overlay (t : string) (page_num total : nat) (title : option string) :
  create_cover_page t page_num total title
  = cover_title_prim t :: create_page_number_overlay page_num total title.
Proof.
  unfold create_cover_page, create_page_number_overlay, cover_title_prim.
  destruct (truthy title); reflexivity.
Qed.

(** C1. [calculate_total_pages] returns [m + sum (ti + 1)], where [m] and
    the [ti] are the page counts of the main and trial documents; it never
    raises; a document whose pages can be counted contributes their number,
    and one that cannot be opened or parsed contributes [0] (the error is
    logged and the count goes on). *)
Theorem calculate_total_pages_total (main_pdf : string) (trial_pdfs : list string) (s : State) :
  (exists s',
     calculate_total_pages main_pdf trial_pdfs s
     = Ok (page_count (fsys s) main_pdf
           + sum_list ((fun p => page_count (fsys s) p + 1) <$> trial_pdfs)) s'
     /\ fsys s' = fsys s /\ writer s' = writer s)
  /\ (forall path pages,
        fsys s !! path = Some (Pdf pages) ->
        page_count (fsys s) path = length pages
        /\ exists s', get_page_count path s = Ok (length pages) s')
  /\ (forall path,
        fsys s !! path = None \/ fsys s !! path = Some NotPdf ->
        page_count (fsys s) path = 0
        /\ exists e, get_page_count path s
                     = Ok 0 (advance s [] [LogError (MsgErrPageCount path e)])).
Proof.
  split; [|split].
  - rewrite calculate_total_pages_run. eexists; split; first reflexivity.
    split; simpl; by rewrite ?app_nil_r.
  - intros path pages Hp. rewrite get_page_count_run /page_count /pages_of Hp.
    split; first done. by eexists.
  - intros path Hp. rewrite get_page_count_run /page_count /count_events /pages_of /open_error.
    destruct Hp as [-> | ->]; (split; first done); by eexists.
Qed.

(** C2. In a run in which the main document and every trial document load
    and enumerate, the pages appended are the emission order (all main pages,
    then for each trial in caller order its cover followed by its body
    pages) numbered 1, 2, ..., as many as the total computed in Phase 1
    (which is logged); the footers made carry exactly the page numbers
    1, 2, ..., total, in that order, each with that total. *)
Theorem successful_run_numbering
    (fs : gmap string PdfFile) (main_pdf : string) (trial_pdfs : list string)
    (output_path : string) (title : option string)
    (main_contents : list Page) (trial_contents : list (list Page)) :
  loads fs main_pdf main_contents ->
  Forall2 (loads fs) trial_pdfs trial_contents ->
  let s := state_of (run fs main_pdf trial_pdfs output_path title) in
  let total := expected_total fs main_pdf trial_pdfs in
  writer s = number_from total title 1
               (emission_order main_contents (zip trial_pdfs trial_contents))
  /\ length (writer s) = total
  /\ specs_of (trace s) = (fun n => mkSpec n total title) <$> seq 1 total
  /\ pages_added (trace s) = writer s
  /\ LogInfo (MsgTotal total) ∈ trace s.
Proof.
  intros Hmain Htrials s total. subst s.
  rewrite (run_main_ok _ _ _ _ _ (loads_doc_error _ _ _ Hmain)).
  cbn [state_of writer trace current_page fsys].
  fold total.
  assert (Hmp : main_pages fs main_pdf total title
                = number_from total title 1 (Body <$> main_contents)).
  { by rewrite /main_pages (loads_pages_of _ _ _ Hmain) good_prefix_Good stamps_number_from. }
  assert (Hlen : length (main_pages fs main_pdf total title) = page_count fs main_pdf).
  { by rewrite Hmp length_number_from length_fmap (loads_page_count _ _ _ Hmain). }
  repeat split.
  - rewrite /emission_order number_from_app length_fmap.
    rewrite (trials_pages_loads _ _ _ _ _ _ Htrials) Hmp length_number_from length_fmap.
    done.
  - rewrite length_app (length_trials_pages_loads _ _ _ _ _ _ Htrials) Hlen. done.
  - rewrite specs_of_app (specs_of_logs _ (prologue_logs _ _ _)) !specs_of_app.
    rewrite (specs_of_logs (write_events output_path)).
    { pose proof (write_events_logs output_path) as H. by inversion H. }
    rewrite /main_events (loads_pages_of _ _ _ Hmain) specs_stamp_events_Good.
    rewrite (specs_trials_events_loads _ _ _ _ _ _ _ Htrials) /= app_nil_r.
    rewrite Hlen -(loads_page_count _ _ _ Hmain) -fmap_app.
    by rewrite -(seq_app _ _ 1).
  - rewrite pages_added_app (pages_added_logs _ (prologue_logs _ _ _)) !pages_added_app.
    rewrite (pages_added_logs (write_events output_path)).
    { pose proof (write_events_logs output_path) as H. by inversion H. }
    rewrite /main_events pages_added_stamp_events pages_added_trials_events /= app_nil_r.
    done.
  - apply elem_of_app. left. apply total_logged.
Qed.

(** C7. Every footer spec made during a run, whatever the sources (for main
    pages, trial covers and trial body pages), has
    [1 <= page_number <= total_pages], and its [total_pages] is the total
    computed in Phase 1 (the one the run logs). *)
Theorem footer_specs_within_total
    (fs : gmap string PdfFile) (main_pdf : string) (trial_pdfs : list string)
    (output_path : string) (title : option string) :
  let s := state_of (run fs main_pdf trial_pdfs output_path title) in
  let total := expected_total fs main_pdf trial_pdfs in
  Forall (fun spec => 1 <= page_number spec <= total_pages spec
                      /\ total_pages spec = total)
         (specs_of (trace s))
  /\ LogInfo (MsgTotal total) ∈ trace s.
Proof.
  intros s total. subst s.
  split; last first.
  { destruct (doc_error fs main_pdf) as [e|] eqn:He.
    - rewrite (run_main_fails _ _ _ _ _ _ He). cbn [state_of trace].
      apply elem_of_app. left. apply total_logged.
    - rewrite (run_main_ok _ _ _ _ _ He). cbn [state_of trace].
      apply elem_of_app. left. apply total_logged. }
  assert (Hweak : forall specs,
            Forall (in_range total title 1 (1 + total)) specs ->
            Forall (fun spec => 1 <= page_number spec <= total_pages spec
                                /\ total_pages spec = total) specs).
  { intros specs H. eapply Forall_impl; first exact H.
    intros spec (Hn & Ht & _). rewrite Ht. split; [lia | done]. }
  apply Hweak.
  pose proof (length_main_pages_le fs main_pdf total title) as Hmp.
  assert (Hme : Forall (in_range total title 1 (1 + total))
                  (specs_of (main_events fs main_pdf total title))).
  { eapply in_range_weaken; last apply specs_stamp_events_range; first lia.
    fold (page_count fs main_pdf). unfold total, expected_total. lia. }
  destruct (doc_error fs main_pdf) as [e|] eqn:He.
  - rewrite (run_main_fails _ _ _ _ _ _ He).
    cbn [state_of writer trace current_page fsys]. fold total.
    rewrite specs_of_app (specs_of_logs _ (prologue_logs _ _ _)) !specs_of_app.
    rewrite (specs_of_logs _ (error_events_logs _)) app_nil_r. exact Hme.
  - rewrite (run_main_ok _ _ _ _ _ He).
    cbn [state_of writer trace current_page fsys]. fold total.
    rewrite specs_of_app (specs_of_logs _ (prologue_logs _ _ _)) !specs_of_app.
    rewrite (specs_of_logs (write_events output_path)).
    { pose proof (write_events_logs output_path) as H. by inversion H. }
    rewrite /= app_nil_r. apply Forall_app; split; first exact Hme.
    eapply in_range_weaken; last apply specs_trials_events_range; first lia.
    unfold total, expected_total in *. lia.
Qed.

(** C10. In every run, on every path, the counter is one more than the
    number of pages appended: at the end of the run; at every point where a
    footer is made (each footer is numbered one more than the number of
    pages appended before it); and across each trial, failed or not.  So
    the pages of the writer carry the consecutive numbers 1, 2, ... *)
Theorem counter_is_one_plus_appended
    (fs : gmap string PdfFile) (main_pdf : string) (trial_pdfs : list string)
    (output_path : string) (title : option string) :
  let s := state_of (run fs main_pdf trial_pdfs output_path title) in
  let total := expected_total fs main_pdf trial_pdfs in
  current_page s = 1 + length (writer s)
  /\ pages_added (trace s) = writer s
  /\ counter_consistent 0 (trace s)
  /\ (forall k page, writer s !! k = Some page -> numbered total title (k + 1) page)
  /\ (forall i pdf_path s0,
        current_page s0 = 1 + length (writer s0) ->
        let s1 := state_of (process_trial total title i pdf_path s0) in
        current_page s1 = 1 + length (writer s1)).
Proof.
  intros s total. subst s.
  assert (Hlast : forall i pdf_path s0,
            current_page s0 = 1 + length (writer s0) ->
            let s1 := state_of (process_trial total title i pdf_path s0) in
            current_page s1 = 1 + length (writer s1)).
  { intros i pdf_path s0 H0. rewrite process_trial_run.
    cbn [state_of advance current_page writer]. rewrite length_app. lia. }
  assert (Hnum : forall pages k page,
            numbered_from total title 1 pages -> pages !! k = Some page ->
            numbered total title (k + 1) page).
  { intros pages k page Hp Hk. rewrite Nat.add_comm.
    by apply (numbered_from_lookup _ _ _ pages). }
  destruct (doc_error fs main_pdf) as [e|] eqn:He.
  - rewrite (run_main_fails _ _ _ _ _ _ He).
    cbn [state_of writer trace current_page fsys]. fold total.
    repeat split; try done.
    + rewrite pages_added_app (pages_added_logs _ (prologue_logs _ _ _)) !pages_added_app.
      rewrite (pages_added_logs _ (error_events_logs _)) app_nil_r.
      by rewrite /main_events pages_added_stamp_events.
    + apply counter_consistent_app; split.
      { apply counter_consistent_logs, prologue_logs. }
      rewrite (pages_added_logs _ (prologue_logs _ _ _)) /=.
      apply counter_consistent_app; split.
      { apply (counter_consistent_stamp_events total title MsgAddedMain 0 0). }
      apply counter_consistent_logs, error_events_logs.
    + intros k page. apply Hnum, stamps_numbered.
  - rewrite (run_main_ok _ _ _ _ _ He).
    cbn [state_of writer trace current_page fsys]. fold total.
    repeat split; try done.
    + rewrite pages_added_app (pages_added_logs _ (prologue_logs _ _ _)) !pages_added_app.
      rewrite (pages_added_logs (write_events output_path)).
      { pose proof (write_events_logs output_path) as H. by inversion H. }
      by rewrite /main_events pages_added_stamp_events pages_added_trials_events
           /= app_nil_r.
    + apply counter_consistent_app; split.
      { apply counter_consistent_logs, prologue_logs. }
      rewrite (pages_added_logs _ (prologue_logs _ _ _)) /=.
      apply counter_consistent_app; split.
      { apply (counter_consistent_stamp_events total title MsgAddedMain 0 0). }
      rewrite /main_events pages_added_stamp_events /=.
      apply counter_consistent_app; split.
      { rewrite -/(main_pages fs main_pdf total title).
        replace (S (length (main_pages fs main_pdf total title)))
          with (length (main_pages fs main_pdf total title) + 1) by lia.
        apply counter_consistent_trials_events. }
      apply counter_consistent_logs, write_events_logs.
    + intros k page. apply Hnum. apply numbered_from_app; split.
      * apply stamps_numbered.
      * apply trials_pages_numbered.
Qed.

(** C4. When the main document cannot be opened or its pages cannot be
    enumerated, [create_final_report] returns [None]: the error is logged,
    no trial is processed (no cover is made), writing is never started and
    the file system is left as it was. *)
Theorem main_failure_aborts
    (fs : gmap string PdfFile) (main_pdf : string) (trial_pdfs : list string)
    (output_path : string) (title : option string) :
  (forall contents, ~ loads fs main_pdf contents) ->
  let r := run fs main_pdf trial_pdfs output_path title in
  is_ok r = true
  /\ returned r = None
  /\ fsys (state_of r) = fs
  /\ (exists e, LogError (MsgErrMain e) ∈ trace (state_of r))
  /\ covers_of (trace (state_of r)) = []
  /\ LogInfo (MsgWriting output_path) ∉ trace (state_of r).
Proof.
  intros Hno r. subst r.
  destruct (doc_error fs main_pdf) as [e|] eqn:He;
    last by (exfalso; eapply Hno, doc_error_None).
  rewrite (run_main_fails _ _ _ _ _ _ He).
  cbn [state_of writer trace current_page fsys is_ok returned].
  repeat split.
  - exists e. apply elem_of_app. right. apply elem_of_app. right.
    apply error_events_log.
  - rewrite covers_of_app (covers_of_logs _ (prologue_logs _ _ _)) covers_of_app.
    by rewrite /main_events covers_of_stamp_events (covers_of_logs _ (error_events_logs _)).
  - apply not_composing_not_in; last done.
    apply Forall_app; split; first apply composing_prologue.
    apply Forall_app; split.
    + by apply composing_stamp_events.
    + by apply composing_error_events.
Qed.

(** C8. When writing the composed output fails, [create_final_report]
    returns [None], never the output path, and never logs completion; if the
    main document was composed, the write error is logged (and shown when
    there is a GUI), and a destination that could not be opened is left
    untouched. *)
Theorem write_failure_returns_None
    (fs : gmap string PdfFile) (main_pdf : string) (trial_pdfs : list string)
    (output_path : string) (title : option string) (f : WriteFault) :
  write_fault output_path = Some f ->
  let r := run fs main_pdf trial_pdfs output_path title in
  is_ok r = true
  /\ returned r = None
  /\ (forall path, LogInfo (MsgComplete path) ∉ trace (state_of r))
  /\ (doc_error fs main_pdf = None ->
      LogError (MsgErrWrite (OSError output_path)) ∈ trace (state_of r)
      /\ (HAS_GUI = true ->
          ShowError (MsgErrWrite (OSError output_path)) ∈ trace (state_of r))
      /\ (f = CannotOpen -> fsys (state_of r) = fs)).
Proof.
  intros Hf r. subst r.
  destruct (doc_error fs main_pdf) as [e|] eqn:He.
  - rewrite (run_main_fails _ _ _ _ _ _ He).
    cbn [state_of writer trace current_page fsys is_ok returned].
    repeat split; try done.
    intros path. apply not_composing_not_in; last done.
    apply Forall_app; split; first apply composing_prologue.
    apply Forall_app; split.
    + by apply composing_stamp_events.
    + by apply composing_error_events.
  - rewrite (run_main_ok _ _ _ _ _ He).
    cbn [state_of writer trace current_page fsys is_ok returned].
    rewrite /write_events /written Hf.
    repeat split; try done.
    + intros path.
      rewrite elem_of_app. intros [H|H].
      { revert H. apply not_composing_not_in; last done. apply composing_prologue. }
      apply elem_of_app in H as [H|H].
      { revert H. apply not_composing_not_in; last done.
        by apply composing_stamp_events. }
      apply elem_of_app in H as [H|H].
      { revert H. apply not_composing_not_in; last done.
        apply composing_trials_events. }
      apply elem_of_cons in H as [H|H]; first done.
      by apply error_events_inv in H as [H|H].
    + do 4 (apply elem_of_app; right). apply error_events_log.
    + intros Hg. do 4 (apply elem_of_app; right). by apply error_events_show.
    + by intros ->.
Qed.

(** C5. A trial document that loads and enumerates gets exactly one cover
    page, appended immediately in front of its body pages; the cover is
    numbered with the counter at that moment and the body pages with the
    numbers after it; its title is the trial's path with the directory
    prefix (empty, or ending with a slash) and the extension (empty, or the
    last dot of the name and what follows) removed, and nothing else
    changed. *)
Theorem cover_precedes_trial_body
    (total : nat) (title : option string) (i : nat) (pdf_path : string)
    (contents : list Page) (s : State) :
  loads (fsys s) pdf_path contents ->
  let n := current_page s in
  let t := (PosixPath.splitext (PosixPath.basename pdf_path)).1 in
  exists evs,
    process_trial total title i pdf_path s
    = Ok tt (advance s (create_cover_page t n total title :: stamps total title (n + 1) contents)
                       evs)
    /\ covers_of evs = [(t, mkSpec n total title)]
    /\ pages_added evs
       = create_cover_page t n total title :: stamps total title (n + 1) contents
    /\ exists dir ext,
         pdf_path = dir +:+ t +:+ ext
         /\ (dir = "" \/ exists d, dir = d +:+ "/")
         /\ has_char "/" (t +:+ ext) = false
         /\ (ext = "" \/ exists e, ext = String "." e /\ has_char "." e = false).
Proof.
  intros Hload n t. subst n.
  exists (trial_events total title (fsys s) i (current_page s) pdf_path).
  rewrite process_trial_run covers_of_trial_events pages_added_trial_events.
  rewrite /trial_pages (loads_pages_of _ _ _ Hload) good_prefix_Good.
  fold t. change (cover_title pdf_path) with t.
  repeat split.
  destruct (basename_spec pdf_path) as (dir & Hdir & Hshape & Hslash).
  destruct (splitext_spec (PosixPath.basename pdf_path)) as (Hname & Hext).
  exists dir, (PosixPath.splitext (PosixPath.basename pdf_path)).2.
  fold t in Hname. by rewrite -Hname.
Qed.

(** C3. A trial document that fails to open or enumerate does not stop the
    run: the exception is caught in that trial's iteration and logged, the
    cover already appended stays in the writer (followed by the body pages
    stamped before the failure, none if the document cannot be opened), and
    the loop goes on with the remaining trials.  For a 2-page main document,
    an unreadable first trial and a 1-page second trial, the total is 5 and
    the writer holds the 2 main pages, the cover of trial 1, the cover of
    trial 2 and the page of trial 2, numbered 1 to 5. *)
Theorem failed_trial_is_skipped :
  (forall total title i pdf_path rest s e,
     doc_error (fsys s) pdf_path = Some e ->
     exists s',
       process_trial total title i pdf_path s = Ok tt s'
       /\ writer s'
          = writer s
            ++ create_cover_page (cover_title pdf_path) (current_page s) total title
               :: stamps total title (current_page s + 1)
                    (good_prefix (pages_of (fsys s) pdf_path))
       /\ LogError (MsgErrTrial (cover_title pdf_path) e) ∈ trace s'
       /\ for_enumerate_from i (pdf_path :: rest) (process_trial total title) s
          = for_enumerate_from (S i) rest (process_trial total title) s')
  /\ (forall fs main_pdf trial1 trial2 output_path title c1 c2 c3,
       loads fs main_pdf [c1; c2] ->
       open_error fs trial1 <> None ->
       loads fs trial2 [c3] ->
       let s := state_of (run fs main_pdf [trial1; trial2] output_path title) in
       expected_total fs main_pdf [trial1; trial2] = 5
       /\ writer s
          = [merged c1 (create_page_number_overlay 1 5 title);
             merged c2 (create_page_number_overlay 2 5 title);
             create_cover_page (cover_title trial1) 3 5 title;
             create_cover_page (cover_title trial2) 4 5 title;
             merged c3 (create_page_number_overlay 5 5 title)]).
Proof.
  split.
  - intros total title i pdf_path rest s e He.
    eexists. split; first apply process_trial_run.
    split; first done. split.
    + cbn [advance trace]. apply elem_of_app. right.
      unfold trial_events, doc_error in *. apply elem_of_app. right.
      destruct (open_error (fsys s) pdf_path) as [e'|].
      * injection He as ->. apply error_events_log.
      * rewrite He. apply elem_of_app. right. apply error_events_log.
    + cbn [for_enumerate_from]. by rewrite bind_run process_trial_run.
  - intros fs main_pdf trial1 trial2 output_path title c1 c2 c3 Hmain H1 H2 s.
    assert (Htotal : expected_total fs main_pdf [trial1; trial2] = 5).
    { rewrite /expected_total /= /page_count (loads_pages_of _ _ _ Hmain)
        (loads_pages_of _ _ _ H2) (open_error_pages_of _ _ H1). done. }
    split; first done. subst s.
    rewrite (run_main_ok _ _ _ _ _ (loads_doc_error _ _ _ Hmain)).
    cbn [state_of writer]. rewrite Htotal.
    rewrite /main_pages (loads_pages_of _ _ _ Hmain) good_prefix_Good.
    rewrite !trials_pages_cons /trial_pages (loads_pages_of _ _ _ H2)
      (open_error_pages_of _ _ H1) good_prefix_Good.
    reflexivity.
Qed.

(** C9 (amended). With an empty trial list and a main document that loads
    and enumerates, the writer holds exactly the main document's pages,
    stamped 1, 2, ... with a total equal to the main document's page count,
    and no cover is made; when the destination can be written the run
    returns the output path and the destination holds those pages. *)
Theorem main_only_run
    (fs : gmap string PdfFile) (main_pdf output_path : string)
    (title : option string) (contents : list Page) :
  loads fs main_pdf contents ->
  let r := run fs main_pdf [] output_path title in
  let total := length contents in
  expected_total fs main_pdf [] = total
  /\ writer (state_of r) = stamps total title 1 contents
  /\ covers_of (trace (state_of r)) = []
  /\ specs_of (trace (state_of r)) = (fun n => mkSpec n total title) <$> seq 1 total
  /\ (write_fault output_path = None ->
      returned r = Some output_path
      /\ fsys (state_of r) !! output_path
         = Some (Pdf (Good <$> stamps total title 1 contents))).
Proof.
  intros Hmain r total. subst r.
  assert (Htotal : expected_total fs main_pdf [] = total).
  { rewrite /expected_total (loads_page_count _ _ _ Hmain) /=. subst total. lia. }
  assert (Hlogs : Forall is_log (write_events output_path)).
  { pose proof (write_events_logs output_path) as H. by inversion H. }
  rewrite (run_main_ok _ _ _ _ _ (loads_doc_error _ _ _ Hmain)).
  cbn [state_of writer trace fsys returned trials_events trials_pages].
  rewrite Htotal /main_pages /main_events (loads_pages_of _ _ _ Hmain) good_prefix_Good.
  rewrite app_nil_r.
  split; first done. split; first done. split; last split.
  - rewrite covers_of_app (covers_of_logs _ (prologue_logs _ _ _)) covers_of_app.
    rewrite covers_of_stamp_events /=. by apply covers_of_logs.
  - rewrite specs_of_app (specs_of_logs _ (prologue_logs _ _ _)) specs_of_app.
    rewrite specs_stamp_events_Good /= (specs_of_logs _ Hlogs) app_nil_r. done.
  - intros Hwf. rewrite /written Hwf. split; first done.
    by rewrite lookup_insert_eq.
Qed.

(** ** Further properties *)

(** *** Paths with a directory part *)

Lemma length_append (a b : string) :
  String.length (a +:+ b) = String.length a + String.length b.
Proof. unfold String.app. induction a as [|x a IH]; simpl; by rewrite ?IH. Qed.

Lemma append_assoc (a b c : string) : (a +:+ b) +:+ c = a +:+ (b +:+ c).
Proof. unfold String.app. induction a as [|x a IH]; simpl; by rewrite ?IH. Qed.

Lemma has_char_append (c : ascii) (a b : string) :
  has_char c (a +:+ b) = has_char c a || has_char c b.
Proof.
  unfold String.app. induction a as [|x a IH]; simpl; first done.
  by rewrite IH orb_assoc.
Qed.

Lemma rfind_from_none (c : ascii) (s : string) (i : Z) :
  has_char c s = false -> PosixPath.rfind_from c s i = (-1)%Z.
Proof.
  revert i. induction s as [|x s IH]; intros i; simpl; first done.
  intros [Hx Hs]%orb_false_iff. by rewrite (IH _ Hs) Hx.
Qed.

Lemma rfind_from_range (c : ascii) (s : string) (i : Z) :
  (0 <= i)%Z ->
  PosixPath.rfind_from c s i = (-1)%Z
  \/ (i <= PosixPath.rfind_from c s i < i + Z.of_nat (String.length s))%Z.
Proof.
  revert i. induction s as [|x s IH]; intros i Hi; simpl; first by left.
  destruct (IH (i + 1)%Z ltac:(lia)) as [-> | Hr].
  - simpl. destruct (Ascii.eqb x c); [right; lia | by left].
  - right. destruct (0 <=? PosixPath.rfind_from c s (i + 1))%Z eqn:Hle; lia.
Qed.

(** The last occurrence in [a ++ b] is the last one in [b], or else the
    last one in [a]. *)
Lemma rfind_from_append (c : ascii) (a b : string) (i : Z) :
  (0 <= i)%Z ->
  PosixPath.rfind_from c (a +:+ b) i
  = if (0 <=? PosixPath.rfind_from c b (i + Z.of_nat (String.length a)))%Z
    then PosixPath.rfind_from c b (i + Z.of_nat (String.length a))
    else PosixPath.rfind_from c a i.
Proof.
  unfold String.app. revert i. induction a as [|x a IH]; intros i Hi.
  - cbn [String.append String.length PosixPath.rfind_from Z.of_nat].
    rewrite Z.add_0_r.
    destruct (rfind_from_range c b i Hi) as [-> | Hr]; first done.
    destruct (0 <=? PosixPath.rfind_from c b i)%Z eqn:Hle; [done | lia].
  - cbn [String.append String.length PosixPath.rfind_from].
    rewrite (IH (i + 1)%Z ltac:(lia)).
    replace (i + 1 + Z.of_nat (String.length a))%Z
      with (i + Z.of_nat (S (String.length a)))%Z by lia.
    destruct (0 <=? PosixPath.rfind_from c b (i + Z.of_nat (S (String.length a))))%Z
      eqn:Hle; cbn zeta; by rewrite ?Hle.
Qed.

(** Searching from a later start index shifts what is found. *)
Lemma rfind_from_shift (c : ascii) (s : string) (i k : Z) :
  (0 <= i)%Z -> (0 <= k)%Z ->
  PosixPath.rfind_from c s (i + k)
  = if (0 <=? PosixPath.rfind_from c s i)%Z
    then (PosixPath.rfind_from c s i + k)%Z else (-1)%Z.
Proof.
  revert i. induction s as [|x s IH]; intros i Hi Hk; first by simpl.
  cbn [PosixPath.rfind_from]. cbn zeta.
  replace (i + k + 1)%Z with (i + 1 + k)%Z by lia.
  rewrite (IH (i + 1)%Z ltac:(lia) Hk).
  destruct (0 <=? PosixPath.rfind_from c s (i + 1))%Z eqn:HR.
  - destruct (0 <=? PosixPath.rfind_from c s (i + 1) + k)%Z eqn:H2; last lia.
    by rewrite HR.
  - change (0 <=? -1)%Z with false. cbn iota.
    destruct (Ascii.eqb x c); last done.
    destruct (0 <=? i)%Z eqn:H3; [done | lia].
Qed.

Lemma rfind_sep_dir (dir name : string) :
  is_dir_prefix dir -> has_char "/" name = false ->
  PosixPath.rfind PosixPath.sep (dir +:+ name) = (Z.of_nat (String.length dir) - 1)%Z.
Proof.
  intros Hdir Hname. unfold PosixPath.rfind.
  rewrite rfind_from_append; first done.
  rewrite (rfind_from_none _ _ _ Hname).
  change (0 <=? -1)%Z with false. cbn iota.
  destruct Hdir as [-> | [d ->]]; first done.
  rewrite rfind_from_append; first done.
  rewrite length_append.
  cbn [PosixPath.rfind_from String.length]. cbn zeta.
  change (Ascii.eqb "/"%char PosixPath.sep) with true.
  change (0 <=? -1)%Z with false. cbn iota.
  destruct (0 <=? 0 + Z.of_nat (String.length d))%Z eqn:Hle; lia.
Qed.

(** [basename] of a name behind a directory prefix is the name. *)
Lemma basename_append (dir name : string) :
  is_dir_prefix dir -> has_char "/" name = false ->
  PosixPath.basename (dir +:+ name) = name.
Proof.
  intros Hdir Hname. unfold PosixPath.basename.
  rewrite (rfind_sep_dir _ _ Hdir Hname).
  replace (Z.to_nat (Z.of_nat (String.length dir) - 1 + 1)) with (String.length dir) by lia.
  apply drop_str_append.
Qed.

Lemma get_append (a b : string) (k : nat) :
  String.get (String.length a + k) (a +:+ b) = String.get k b.
Proof. unfold String.app. induction a as [|x a IH]; simpl; done. Qed.

Lemma has_non_dot_append (a b : string) (k count : nat) :
  PosixPath.has_non_dot (a +:+ b) (String.length a + k) count
  = PosixPath.has_non_dot b k count.
Proof.
  revert k. induction count as [|count IH]; intros k; simpl; first done.
  rewrite get_append. destruct (String.get k b) as [x|]; last done.
  destruct (Ascii.eqb x PosixPath.extsep); last done.
  by rewrite -IH Nat.add_succ_r.
Qed.

(** [splitext] leaves a directory prefix alone: it splits the name. *)
Lemma splitext_append (dir name : string) :
  is_dir_prefix dir -> has_char "/" name = false ->
  PosixPath.splitext (dir +:+ name)
  = (dir +:+ (PosixPath.splitext name).1, (PosixPath.splitext name).2).
Proof.
  intros Hdir Hname. unfold PosixPath.splitext.
  rewrite (rfind_sep_dir _ _ Hdir Hname).
  assert (Hs : PosixPath.rfind PosixPath.sep name = (-1)%Z)
    by by apply rfind_from_none.
  rewrite Hs.
  assert (Hdot : PosixPath.rfind PosixPath.extsep (dir +:+ name)
                 = if (0 <=? PosixPath.rfind PosixPath.extsep name)%Z
                   then (PosixPath.rfind PosixPath.extsep name
                         + Z.of_nat (String.length dir))%Z
                   else PosixPath.rfind PosixPath.extsep dir).
  { unfold PosixPath.rfind. rewrite rfind_from_append; first done.
    rewrite (rfind_from_shift _ name 0 (Z.of_nat (String.length dir))); [done | lia |].
    destruct (Z.leb_spec 0 (PosixPath.rfind_from PosixPath.extsep name 0)); last done.
    destruct (Z.leb_spec 0 (PosixPath.rfind_from PosixPath.extsep name 0
                            + Z.of_nat (String.length dir))); [done | lia]. }
  rewrite Hdot. clear Hdot.
  destruct (rfind_spec PosixPath.extsep name) as [[Hr Hc] | (pre & post & Hn & Hr & Hc)];
    rewrite Hr.
  - change (0 <=? -1)%Z with false. change (-1 <? -1)%Z with false. cbn iota.
    destruct (rfind_from_range PosixPath.extsep dir 0 ltac:(lia)) as [Hd | Hd];
      fold (PosixPath.rfind PosixPath.extsep dir) in Hd.
    + rewrite Hd.
      destruct (Z.ltb_spec (Z.of_nat (String.length dir) - 1) (-1)); [lia | done].
    + destruct (Z.ltb_spec (Z.of_nat (String.length dir) - 1)
                  (PosixPath.rfind PosixPath.extsep dir)); [lia | done].
  - destruct (Z.leb_spec 0 (Z.of_nat (String.length pre))); last lia.
    destruct (Z.ltb_spec (Z.of_nat (String.length dir) - 1)
                (Z.of_nat (String.length pre) + Z.of_nat (String.length dir))); last lia.
    destruct (Z.ltb_spec (-1) (Z.of_nat (String.length pre))); last lia.
    replace (Z.to_nat (Z.of_nat (String.length dir) - 1 + 1)) with (String.length dir + 0)
      by lia.
    replace (Z.to_nat (Z.of_nat (String.length pre) + Z.of_nat (String.length dir)
                       - (Z.of_nat (String.length dir) - 1 + 1)))
      with (String.length pre) by lia.
    replace (Z.to_nat (-1 + 1)) with 0 by lia.
    replace (Z.to_nat (Z.of_nat (String.length pre) - (-1 + 1))) with (String.length pre)
      by lia.
    rewrite has_non_dot_append.
    destruct (PosixPath.has_non_dot name 0 (String.length pre)); last done.
    replace (Z.to_nat (Z.of_nat (String.length pre) + Z.of_nat (String.length dir)))
      with (String.length (dir +:+ pre)) by (rewrite length_append; lia).
    rewrite Nat2Z.id. subst name.
    rewrite -append_assoc !take_str_append !drop_str_append. done.
Qed.

(** The name suggested for the output: the main document's name with its
    extension replaced. *)
Lemma basename_splitext_suffix (p suffix : string) :
  has_char "/" suffix = false ->
  PosixPath.basename ((PosixPath.splitext p).1 +:+ suffix)
  = (PosixPath.splitext (PosixPath.basename p)).1 +:+ suffix.
Proof.
  intros Hsuffix.
  destruct (basename_spec p) as (dir & Hp & Hdir & Hname).
  destruct (splitext_spec (PosixPath.basename p)) as (Hsplit & _).
  assert (Hroot : has_char "/" (PosixPath.splitext (PosixPath.basename p)).1 = false).
  { rewrite Hsplit has_char_append in Hname. by apply orb_false_iff in Hname as [? _]. }
  rewrite {1}Hp (splitext_append _ _ Hdir Hname). cbn [fst].
  rewrite append_assoc. apply basename_append; first done.
  by rewrite has_char_append Hroot Hsuffix.
Qed.

(** *** Helpers about whole runs *)

Lemma run_frame fs main_pdf trial_pdfs output_path title path :
  path <> output_path ->
  fsys (state_of (run fs main_pdf trial_pdfs output_path title)) !! path = fs !! path.
Proof.
  intros Hne. destruct (doc_error fs main_pdf) as [e|] eqn:He.
  - by rewrite (run_main_fails _ _ _ _ _ _ He).
  - rewrite (run_main_ok _ _ _ _ _ He). cbn [state_of fsys]. unfold written.
    assert (Hne' : output_path <> path) by congruence.
    destruct (write_fault output_path) as [[|]|]; by rewrite ?(lookup_insert_ne _ _ _ _ Hne').
Qed.

Lemma run_returned fs main_pdf trial_pdfs output_path title :
  returned (run fs main_pdf trial_pdfs output_path title)
  = match doc_error fs main_pdf, write_fault output_path with
    | None, None => Some output_path
    | _, _ => None
    end.
Proof.
  destruct (doc_error fs main_pdf) as [e|] eqn:He.
  - by rewrite (run_main_fails _ _ _ _ _ _ He).
  - rewrite (run_main_ok _ _ _ _ _ He). cbn [returned].
    by destruct (write_fault output_path).
Qed.

Lemma run_is_ok fs main_pdf trial_pdfs output_path title :
  is_ok (run fs main_pdf trial_pdfs output_path title) = true.
Proof.
  destruct (doc_error fs main_pdf) as [e|] eqn:He.
  - by rewrite (run_main_fails _ _ _ _ _ _ He).
  - by rewrite (run_main_ok _ _ _ _ _ He).
Qed.

Lemma page_error_iff_length objs :
  page_error objs = None <-> length (good_prefix objs) = length objs.
Proof.
  induction objs as [|[c| |c] rest IH]; simpl; try done.
  rewrite IH. split; [by intros -> | by intros [= ->]].
Qed.

Lemma length_trials_pages_eq_iff total title fs n trial_pdfs :
  length (trials_pages total title fs n trial_pdfs)
  = sum_list ((fun p => page_count fs p + 1) <$> trial_pdfs)
  <-> Forall (fun p => page_error (pages_of fs p) = None) trial_pdfs.
Proof.
  revert n. induction trial_pdfs as [|p rest IH]; intros n.
  - split; [constructor | done].
  - rewrite trials_pages_cons length_app length_trial_pages fmap_cons sum_list_cons.
    rewrite Forall_cons page_error_iff_length -(IH (n + S (length (good_prefix (pages_of fs p))))).
    pose proof (length_good_prefix (pages_of fs p)).
    pose proof (length_trials_pages_le total title fs
                  (n + S (length (good_prefix (pages_of fs p)))) rest).
    unfold page_count in *. lia.
Qed.

Lemma covers_of_trials_events total title fs i n trial_pdfs :
  (covers_of (trials_events total title fs i n trial_pdfs)).*1 = cover_title <$> trial_pdfs.
Proof.
  revert i n. induction trial_pdfs as [|p rest IH]; intros i n; first done.
  by rewrite trials_events_cons covers_of_app covers_of_trial_events fmap_app IH.
Qed.

(** X1. A run returns the output path exactly when the main document loads
    and enumerates and the destination can be written; in every other case
    it returns [None].  Trial documents, readable or not, never change
    the value returned. *)
Theorem returned_characterised
    (fs : gmap string PdfFile) (main_pdf : string) (trial_pdfs : list string)
    (output_path : string) (title : option string) :
  is_ok (run fs main_pdf trial_pdfs output_path title) = true
  /\ returned (run fs main_pdf trial_pdfs output_path title)
     = match doc_error fs main_pdf, write_fault output_path with
       | None, None => Some output_path
       | _, _ => None
       end.
Proof. split; [apply run_is_ok | apply run_returned]. Qed.

(** X2. A run changes no file other than the destination: every other path
    holds after the run what it held before. *)
Theorem other_files_untouched
    (fs : gmap string PdfFile) (main_pdf : string) (trial_pdfs : list string)
    (output_path : string) (title : option string) (path : string) :
  path <> output_path ->
  fsys (state_of (run fs main_pdf trial_pdfs output_path title)) !! path = fs !! path.
Proof. apply run_frame. Qed.

(** X3. Nothing protects the inputs from the destination: when the
    destination is the main document itself and the write succeeds, the run
    returns success and the main document has been replaced by the composed
    output. *)
Theorem destination_may_overwrite_main
    (fs : gmap string PdfFile) (main_pdf : string) (trial_pdfs : list string)
    (title : option string) (contents : list Page) :
  loads fs main_pdf contents ->
  write_fault main_pdf = None ->
  let r := run fs main_pdf trial_pdfs main_pdf title in
  returned r = Some main_pdf
  /\ fsys (state_of r) !! main_pdf = Some (Pdf (Good <$> writer (state_of r))).
Proof.
  intros Hmain Hwf r. subst r.
  rewrite run_returned (loads_doc_error _ _ _ Hmain) Hwf.
  rewrite (run_main_ok _ _ _ _ _ (loads_doc_error _ _ _ Hmain)).
  cbn [state_of fsys writer]. by rewrite /written Hwf lookup_insert_eq.
Qed.

(** X4. Counting the pages of a written output gives the number of pages
    the run appended, without an error; that number never exceeds the total
    printed in the footers. *)
Theorem written_output_page_count
    (fs : gmap string PdfFile) (main_pdf : string) (trial_pdfs : list string)
    (output_path : string) (title : option string) :
  doc_error fs main_pdf = None ->
  write_fault output_path = None ->
  let s := state_of (run fs main_pdf trial_pdfs output_path title) in
  get_page_count output_path s = Ok (length (writer s)) s
  /\ length (writer s) <= expected_total fs main_pdf trial_pdfs.
Proof.
  intros He Hwf s. subst s.
  rewrite (run_main_ok _ _ _ _ _ He). cbn [state_of].
  split.
  - rewrite get_page_count_run /page_count /count_events /pages_of /open_error.
    cbn [fsys writer]. rewrite /written Hwf lookup_insert_eq length_fmap.
    by rewrite advance_nil.
  - cbn [writer]. rewrite length_app.
    pose proof (length_main_pages_le fs main_pdf (expected_total fs main_pdf trial_pdfs) title).
    pose proof (length_trials_pages_le (expected_total fs main_pdf trial_pdfs) title fs
                  (1 + length (main_pages fs main_pdf
                                 (expected_total fs main_pdf trial_pdfs) title)) trial_pdfs).
    unfold expected_total in *. lia.
Qed.

(** X5. When the main document loads, the number of pages appended equals
    the total of the footers exactly when no trial fails part-way through
    its pages.  A trial that cannot be opened at all does not disturb the
    count: it is counted as its cover only, and only its cover is emitted. *)
Theorem appended_equals_total_iff
    (fs : gmap string PdfFile) (main_pdf : string) (trial_pdfs : list string)
    (output_path : string) (title : option string) :
  doc_error fs main_pdf = None ->
  length (writer (state_of (run fs main_pdf trial_pdfs output_path title)))
  = expected_total fs main_pdf trial_pdfs
  <-> Forall (fun p => page_error (pages_of fs p) = None) trial_pdfs.
Proof.
  intros He. rewrite (run_main_ok _ _ _ _ _ He). cbn [state_of writer].
  rewrite length_app -length_trials_pages_eq_iff.
  assert (Hmain : length (main_pages fs main_pdf (expected_total fs main_pdf trial_pdfs) title)
                  = page_count fs main_pdf).
  { pose proof (doc_error_None _ _ He) as Hl.
    by rewrite /main_pages length_stamps -(loads_page_count _ _ _ Hl). }
  rewrite Hmain. unfold expected_total.
  split; intros H.
  - apply (Nat.add_cancel_l _ _ (page_count fs main_pdf)). exact H.
  - by rewrite H.
Qed.

(** X6. When the main document loads, one cover is made for every trial,
    readable or not, in the caller's order, titled after the trial's file
    name. *)
Theorem one_cover_per_trial
    (fs : gmap string PdfFile) (main_pdf : string) (trial_pdfs : list string)
    (output_path : string) (title : option string) :
  doc_error fs main_pdf = None ->
  (covers_of (trace (state_of (run fs main_pdf trial_pdfs output_path title)))).*1
  = cover_title <$> trial_pdfs.
Proof.
  intros He. rewrite (run_main_ok _ _ _ _ _ He). cbn [state_of trace].
  rewrite covers_of_app (covers_of_logs _ (prologue_logs _ _ _)) covers_of_app.
  rewrite /main_events covers_of_stamp_events covers_of_app.
  rewrite (covers_of_logs _ (write_events_logs output_path)) app_nil_r.
  apply covers_of_trials_events.
Qed.

(** *** Helpers about titles, totals and the log *)

Lemma overlay_falsy n total t1 t2 :
  truthy t1 = false -> truthy t2 = false ->
  create_page_number_overlay n total t1 = create_page_number_overlay n total t2.
Proof. unfold create_page_number_overlay. by intros -> ->. Qed.

Lemma cover_falsy t n total t1 t2 :
  truthy t1 = false -> truthy t2 = false ->
  create_cover_page t n total t1 = create_cover_page t n total t2.
Proof. unfold create_cover_page. by intros -> ->. Qed.

Lemma stamps_falsy total t1 t2 n contents :
  truthy t1 = false -> truthy t2 = false ->
  stamps total t1 n contents = stamps total t2 n contents.
Proof.
  intros H1 H2. revert n. induction contents as [|c rest IH]; intros n; simpl; first done.
  by rewrite IH (overlay_falsy _ _ _ _ H1 H2).
Qed.

Lemma trials_pages_falsy total t1 t2 fs n trial_pdfs :
  truthy t1 = false -> truthy t2 = false ->
  trials_pages total t1 fs n trial_pdfs = trials_pages total t2 fs n trial_pdfs.
Proof.
  intros H1 H2. revert n. induction trial_pdfs as [|p rest IH]; intros n; first done.
  rewrite !trials_pages_cons /trial_pages.
  by rewrite (cover_falsy _ _ _ _ _ H1 H2) (stamps_falsy _ _ _ _ _ H1 H2) IH.
Qed.

Lemma str_of_nat_inj n m : str_of_nat n = str_of_nat m -> n = m.
Proof.
  unfold str_of_nat. intros H.
  apply (f_equal NilEmpty.uint_of_string) in H. rewrite !NilEmpty.usu in H.
  injection H as H.
  by rewrite -(DecimalNat.Unsigned.of_to n) -(DecimalNat.Unsigned.of_to m) H.
Qed.

Lemma append_inv_tail (a b s : string) : a +:+ s = b +:+ s -> a = b.
Proof.
  intros Heq.
  assert (Hlen : String.length a = String.length b).
  { apply (f_equal String.length) in Heq. rewrite !length_append in Heq. lia. }
  revert b Heq Hlen. unfold String.app.
  induction a as [|x a IH]; intros [|y b] Heq Hlen; simpl in *; try done.
  injection Heq as -> Heq. f_equal. apply IH; [done | lia].
Qed.

Lemma overlay_shape n total title :
  create_page_number_overlay n total title
  = Canvas.Rect 0 0 612 (0.7 * inch) (Some (1, 1, 1)%float) None
    :: (if truthy title
        then [Canvas.Text (0.5 * inch) (0.25 * inch) (title_text title)
                "Helvetica" 10 Canvas.black]
        else [])
    ++ [Canvas.Text
          ((612 - stringWidth ("Page " +:+ str_of_nat n +:+ " of " +:+ str_of_nat total)
                    "Helvetica" 10) / 2)
          (0.25 * inch)
          ("Page " +:+ str_of_nat n +:+ " of " +:+ str_of_nat total)
          "Helvetica" 10 Canvas.black;
        Canvas.Line (0.5 * inch) (0.5 * inch) (612 - 0.5 * inch) (0.5 * inch)
          (0.5, 0.5, 0.5)%float].
Proof. unfold create_page_number_overlay. by destruct (truthy title). Qed.

Lemma no_errors_app a b : no_errors (a ++ b) = no_errors a && no_errors b.
Proof. apply forallb_app. Qed.

Lemma no_errors_error_events m : no_errors (error_events m) = false.
Proof. reflexivity. Qed.

Lemma no_errors_stamp_events total title added i n objs :
  no_errors (stamp_events total title added i n objs) = true.
Proof.
  revert i n. induction objs as [|[c| |c] rest IH]; intros i n; simpl; done.
Qed.

Lemma no_errors_count_events fs path :
  no_errors (count_events fs path) = true <-> open_error fs path = None.
Proof. unfold count_events. by destruct (open_error fs path). Qed.

Lemma no_errors_trial_events total title fs i n path :
  no_errors (trial_events total title fs i n path) = true <-> doc_error fs path = None.
Proof.
  unfold trial_events, doc_error. rewrite no_errors_app.
  destruct (open_error fs path) as [e|].
  - by rewrite no_errors_error_events.
  - rewrite no_errors_app no_errors_stamp_events.
    destruct (page_error (pages_of fs path)); by rewrite ?no_errors_error_events.
Qed.

Lemma no_errors_trials_events total title fs i n trial_pdfs :
  no_errors (trials_events total title fs i n trial_pdfs) = true
  <-> Forall (fun p => doc_error fs p = None) trial_pdfs.
Proof.
  revert i n. induction trial_pdfs as [|p rest IH]; intros i n.
  - split; [constructor | done].
  - rewrite trials_events_cons no_errors_app andb_true_iff Forall_cons.
    by rewrite no_errors_trial_events IH.
Qed.

Lemma no_errors_prologue fs main_pdf trial_pdfs :
  no_errors (prologue fs main_pdf trial_pdfs) = true
  <-> open_error fs main_pdf = None /\ Forall (fun p => open_error fs p = None) trial_pdfs.
Proof.
  unfold prologue. rewrite !no_errors_app !andb_true_iff no_errors_count_events.
  assert (Hc : no_errors (concat (count_events fs <$> trial_pdfs)) = true
               <-> Forall (fun p => open_error fs p = None) trial_pdfs).
  { induction trial_pdfs as [|p rest IH]; first (split; [constructor | done]).
    rewrite fmap_cons concat_cons no_errors_app andb_true_iff Forall_cons.
    by rewrite no_errors_count_events IH. }
  rewrite Hc. intuition.
Qed.

Lemma doc_error_open_error fs path : doc_error fs path = None -> open_error fs path = None.
Proof. unfold doc_error. by destruct (open_error fs path). Qed.

(** X7. Cancelling the title prompt ([None]) and entering an empty title
    give the same document: the same pages, the same files and the same
    result. *)
Theorem empty_title_same_as_none
    (fs : gmap string PdfFile) (main_pdf : string) (trial_pdfs : list string)
    (output_path : string) :
  let r1 := run fs main_pdf trial_pdfs output_path None in
  let r2 := run fs main_pdf trial_pdfs output_path (Some "") in
  writer (state_of r1) = writer (state_of r2)
  /\ fsys (state_of r1) = fsys (state_of r2)
  /\ returned r1 = returned r2.
Proof.
  intros r1 r2. subst r1 r2.
  assert (H1 : truthy None = false) by done.
  assert (H2 : truthy (Some "") = false) by done.
  rewrite !run_returned.
  destruct (doc_error fs main_pdf) as [e|] eqn:He.
  - rewrite !(run_main_fails _ _ _ _ _ _ He). cbn [state_of writer fsys].
    by rewrite /main_pages (stamps_falsy _ _ _ _ _ H1 H2).
  - rewrite !(run_main_ok _ _ _ _ _ He). cbn [state_of writer fsys].
    rewrite /main_pages (stamps_falsy _ _ _ _ _ H1 H2) !length_stamps.
    by rewrite (trials_pages_falsy _ _ _ _ _ _ H1 H2).
Qed.

(** X8. The total does not depend on the order of the trial documents:
    [calculate_total_pages] returns the same value for any permutation of
    the trial list. *)
Theorem total_invariant_under_permutation
    (main_pdf : string) (trial_pdfs trial_pdfs' : list string) (s : State) :
  trial_pdfs ≡ₚ trial_pdfs' ->
  exists total s1 s2,
    calculate_total_pages main_pdf trial_pdfs s = Ok total s1
    /\ calculate_total_pages main_pdf trial_pdfs' s = Ok total s2.
Proof.
  intros Hperm. rewrite !calculate_total_pages_run.
  assert (Heq : expected_total (fsys s) main_pdf trial_pdfs
                = expected_total (fsys s) main_pdf trial_pdfs').
  { unfold expected_total. by rewrite Hperm. }
  rewrite Heq. by do 3 eexists.
Qed.

(** X9. Two footers for the same total and report title are equal only if
    they carry the same page number: distinct page numbers always give
    distinct overlays. *)
Theorem overlay_determines_page_number
    (n n' total : nat) (title : option string) :
  n <> n' ->
  create_page_number_overlay n total title <> create_page_number_overlay n' total title.
Proof.
  intros Hne H. apply Hne. revert H.
  rewrite !overlay_shape. intros H.
  assert (Htext : str_of_nat n +:+ " of " +:+ str_of_nat total
                  = str_of_nat n' +:+ " of " +:+ str_of_nat total).
  { destruct (truthy title); simpl in H; injection H as _ Ht; exact Ht. }
  by apply str_of_nat_inj, (append_inv_tail _ _ (" of " +:+ str_of_nat total)).
Qed.

(** X10. No failure is silent: the log of a run has no error entry exactly
    when the main document and every trial document load and enumerate and
    the destination is written. *)
Theorem no_error_logged_iff
    (fs : gmap string PdfFile) (main_pdf : string) (trial_pdfs : list string)
    (output_path : string) (title : option string) :
  no_errors (trace (state_of (run fs main_pdf trial_pdfs output_path title))) = true
  <-> doc_error fs main_pdf = None
      /\ Forall (fun p => doc_error fs p = None) trial_pdfs
      /\ write_fault output_path = None.
Proof.
  destruct (doc_error fs main_pdf) as [e|] eqn:He.
  - rewrite (run_main_fails _ _ _ _ _ _ He). cbn [state_of trace].
    rewrite !no_errors_app no_errors_error_events !andb_false_r.
    split; [done | by intros [? _]].
  - rewrite (run_main_ok _ _ _ _ _ He). cbn [state_of trace].
    rewrite no_errors_app andb_true_iff no_errors_prologue.
    rewrite no_errors_app andb_true_iff /main_events no_errors_stamp_events.
    rewrite no_errors_app andb_true_iff no_errors_trials_events.
    assert (Hw : no_errors ([LogInfo (MsgWriting output_path)] ++ write_events output_path)
                 = true <-> write_fault output_path = None).
    { unfold write_events. by destruct (write_fault output_path). }
    rewrite Hw. split.
    + intros (_ & _ & Ht & Hwf). done.
    + intros (_ & Ht & Hwf). split; last done.
      split; first by apply doc_error_open_error.
      eapply Forall_impl; first exact Ht. intros p. apply doc_error_open_error.
Qed.

(** X11. The overlay never paints above the footer band: every primitive of
    [create_page_number_overlay] stays within 0.7 inch from the bottom edge,
    whatever the page number, total, title and font metrics.  On a cover
    page only the first primitive, the title line, lies outside the band. *)
Theorem overlay_within_footer_band
    (t : string) (n total : nat) (title : option string) :
  Forall in_footer_band (create_page_number_overlay n total title)
  /\ exists first rest,
       create_cover_page t n total title = first :: rest
       /\ in_footer_band first = false
       /\ Forall in_footer_band rest.
Proof.
  split.
  - rewrite overlay_shape. destruct (truthy title); repeat constructor.
  - unfold create_cover_page.
    destruct (truthy title); do 2 eexists; (split; first reflexivity);
      (split; first reflexivity); repeat constructor.
Qed.

(** X12. A cover title depends on the file name only: the directory of a
    trial document never shows, so trials with the same file name in
    different directories get the same cover title. *)
Theorem cover_title_ignores_directory (dir name : string) :
  is_dir_prefix dir ->
  has_char "/" name = false ->
  cover_title (dir +:+ name) = cover_title name.
Proof.
  intros Hdir Hname. unfold cover_title.
  rewrite (basename_append _ _ Hdir Hname).
  assert (Hself : PosixPath.basename name = name).
  { apply (basename_append "" name); [by left | done]. }
  by rewrite Hself.
Qed.

End Engine.

(** ** Properties of the user-interface functions *)

Lemma lift_report sw gui wf fs main_pdf trial_pdfs output_pdf title evs :
  lift (create_final_report sw gui wf main_pdf trial_pdfs output_pdf title)
       (mkApp (initial fs) evs)
  = Done (returned (run sw gui wf fs main_pdf trial_pdfs output_pdf title))
         (mkApp (state_of (run sw gui wf fs main_pdf trial_pdfs output_pdf title)) evs).
Proof.
  unfold lift. cbn [core ui].
  fold (run sw gui wf fs main_pdf trial_pdfs output_pdf title).
  pose proof (run_is_ok sw gui wf fs main_pdf trial_pdfs output_pdf title) as Hok.
  by destruct (run sw gui wf fs main_pdf trial_pdfs output_pdf title).
Qed.

(** What [process_files] does with a GUI, by the answers to its dialogs. *)
Lemma process_files_gui sw wf u fs evs :
  let m := askopenfilename u in
  let t := askopenfilenames u in
  let title := askstring u in
  let o := asksaveasfilename u (suggested_name m) in
  let r := run sw true wf fs m t o title in
  process_files sw true wf u (mkApp (initial fs) evs)
  = Done tt
      (if not_str m then
         mkApp (initial fs) (evs ++ [AskMain; UiLogError MsgNoFiles])
       else if negb (truthy_list (Some t)) then
         mkApp (initial fs) (evs ++ [AskMain; AskTrials; UiLogError MsgNoFiles])
       else if not_str o then
         mkApp (initial fs)
               (evs ++ [AskMain; AskTrials; AskTitle; AskSave (suggested_name m);
                        UiLogInfo MsgCancelled])
       else
         mkApp (state_of r)
               (evs ++ [AskMain; AskTrials; AskTitle; AskSave (suggested_name m);
                        UiLogInfo (MsgMainPdf m);
                        UiLogInfo (MsgTrialPdfs (PosixPath.basename <$> t));
                        UiLogInfo (MsgReportTitle title);
                        CallReport m t o title]
                    ++ (if truthy (returned r)
                        then AskOpenNow o :: (if askyesno u then [OpenViewer o] else [])
                        else []))).
Proof.
  intros m t title o r. subst m t title o r.
  unfold process_files, pick_files_and_title, choose_output, suggested_name,
    ubind, ui_emit, uret.
  cbn [negb core ui].
  destruct (askopenfilename u) as [|a m] eqn:Hm.
  { cbn [not_str truthy truthy_list negb orb core ui]. by rewrite -app_assoc. }
  cbn [not_str].
  destruct (askopenfilenames u) as [|p t] eqn:Ht.
  { cbn [not_str truthy truthy_list negb orb core ui]. by rewrite -!app_assoc. }
  cbn [truthy_list truthy negb orb default from_option id core ui].
  destruct (PosixPath.splitext (String a m)) as [base ext] eqn:Hs. cbn [fst core ui].
  destruct (asksaveasfilename u (PosixPath.basename (base +:+ "_WithCovers.pdf")))
    as [|b o] eqn:Ho.
  { cbn [not_str core ui]. by rewrite -!app_assoc. }
  cbn [not_str core ui].
  rewrite lift_report.
  destruct (returned (run sw true wf fs (String a m) (p :: t) (String b o) (askstring u)))
    as [[|c res]|]; cbn [truthy andb core ui].
  - by rewrite -!app_assoc app_nil_r.
  - destruct (askyesno u); cbn [core ui]; by rewrite -!app_assoc.
  - by rewrite -!app_assoc app_nil_r.
Qed.

Lemma not_str_true s : not_str s = true <-> s = "".
Proof. by destruct s. Qed.

Lemma not_str_false s : not_str s = false <-> s <> "".
Proof. by destruct s. Qed.

Lemma truthy_nonempty s : s <> "" -> truthy (Some s) = true.
Proof. by destruct s. Qed.

Lemma suggested_name_eq main_pdf :
  suggested_name main_pdf = cover_title main_pdf +:+ "_WithCovers.pdf".
Proof. unfold suggested_name, cover_title. by apply basename_splitext_suffix. Qed.

Lemma truthy_list_true t : truthy_list (Some t) = true <-> t <> [].
Proof. by destruct t. Qed.

(** X13. Without tkinter the tool does nothing: [main] logs that no GUI is
    available and leaves through [sys.exit(1)], before any dialog, any
    document read and any write; the default destination next to the main
    document is never used. *)
Theorem no_gui_exits_with_status_1
    (stringWidth : string -> string -> float -> float)
    (write_fault : string -> option WriteFault) (u : User) (fs : gmap string PdfFile) :
  main stringWidth false write_fault u (start_app fs)
  = Exit 1 (mkApp (initial fs) [UiLogError MsgNoGui]).
Proof. reflexivity. Qed.

(** X14. [process_files] calls [create_final_report] exactly when there is
    a GUI and the main document, a non-empty list of trials and a
    destination were chosen; it passes the chosen main document, the trials
    in the order chosen, the title entered, and the destination returned by
    the save dialog, which was offered the main document's file name with
    its extension replaced by [_WithCovers.pdf]. *)
Theorem report_called_iff
    (stringWidth : string -> string -> float -> float) (HAS_GUI : bool)
    (write_fault : string -> option WriteFault) (u : User) (fs : gmap string PdfFile)
    (m : string) (t : list string) (o : string) (title : option string) :
  CallReport m t o title
    ∈ ui (app_of (process_files stringWidth HAS_GUI write_fault u (start_app fs)))
  <-> HAS_GUI = true
      /\ m = askopenfilename u /\ m <> ""
      /\ t = askopenfilenames u /\ t <> []
      /\ o = asksaveasfilename u (cover_title m +:+ "_WithCovers.pdf") /\ o <> ""
      /\ title = askstring u.
Proof.
  destruct HAS_GUI.
  2: { cbn. rewrite list_elem_of_singleton. split; [done | by intros [? _]]. }
  unfold start_app. rewrite process_files_gui. cbn [app_of app].
  rewrite suggested_name_eq.
  destruct (not_str (askopenfilename u)) eqn:Hm.
  { cbn [ui]. rewrite !elem_of_cons elem_of_nil.
    apply not_str_true in Hm. split; [by intuition | intros (_ & -> & ? & _); done]. }
  destruct (truthy_list (Some (askopenfilenames u))) eqn:Ht; cbn [negb].
  2: { cbn [ui]. rewrite !elem_of_cons elem_of_nil. split; first by intuition.
       intros (_ & _ & _ & -> & Hne & _). apply truthy_list_true in Hne. congruence. }
  destruct (not_str (asksaveasfilename u (cover_title (askopenfilename u) +:+ "_WithCovers.pdf")))
    eqn:Ho.
  { cbn [ui]. rewrite !elem_of_cons elem_of_nil.
    apply not_str_true in Ho. split; first by intuition.
    intros (_ & -> & _ & _ & _ & -> & Hne & _). done. }
  apply not_str_false in Hm, Ho. apply truthy_list_true in Ht.
  cbn [ui]. rewrite !elem_of_cons.
  split.
  - intros [H|[H|[H|[H|[H|[H|[H|[H|H]]]]]]]]; try done.
    + injection H as -> -> -> ->. done.
    + destruct (truthy _); last by apply elem_of_nil in H.
      apply elem_of_cons in H as [H|H]; first done.
      destruct (askyesno u); last by apply elem_of_nil in H.
      by apply list_elem_of_singleton in H.
  - intros (_ & -> & _ & -> & _ & -> & _ & ->). do 7 right. by left.
Qed.

(** X15. Unless there is a GUI and all three file dialogs are answered,
    [process_files] has no effect on the engine: no document is read, no
    page is composed and no file is written. *)
Theorem nothing_without_all_answers
    (stringWidth : string -> string -> float -> float) (HAS_GUI : bool)
    (write_fault : string -> option WriteFault) (u : User) (fs : gmap string PdfFile) :
  HAS_GUI = false
  \/ askopenfilename u = ""
  \/ askopenfilenames u = []
  \/ asksaveasfilename u (suggested_name (askopenfilename u)) = "" ->
  core (app_of (process_files stringWidth HAS_GUI write_fault u (start_app fs)))
  = initial fs.
Proof.
  intros H. destruct HAS_GUI; last done.
  unfold start_app. rewrite process_files_gui. cbn [app_of].
  destruct H as [H|[H|[H|H]]]; first done.
  - by rewrite H.
  - rewrite H. by destruct (not_str (askopenfilename u)).
  - rewrite H. destruct (not_str (askopenfilename u)); first done.
    by destruct (negb (truthy_list (Some (askopenfilenames u)))).
Qed.

(** X16. [process_files] changes no file other than the one the save
    dialog returned: every other path, the inputs included, holds afterwards
    what it held before. *)
Theorem only_chosen_destination_written
    (stringWidth : string -> string -> float -> float) (HAS_GUI : bool)
    (write_fault : string -> option WriteFault) (u : User) (fs : gmap string PdfFile)
    (path : string) :
  path <> asksaveasfilename u (suggested_name (askopenfilename u)) ->
  fsys (core (app_of (process_files stringWidth HAS_GUI write_fault u (start_app fs))))
    !! path
  = fs !! path.
Proof.
  intros Hne. destruct HAS_GUI; last done.
  unfold start_app. rewrite process_files_gui. cbn [app_of].
  destruct (not_str (askopenfilename u)); first done.
  destruct (negb (truthy_list (Some (askopenfilenames u)))); first done.
  destruct (not_str _); first done.
  cbn [core]. by apply run_frame.
Qed.

(** X17. With a GUI and all dialogs answered, the user is asked whether to
    open the result exactly when the report was written (the main document
    loaded and the write succeeded), and the viewer is started exactly when
    the user then says yes.  A failed trial does not suppress the question. *)
Theorem open_prompt_iff_written
    (stringWidth : string -> string -> float -> float)
    (write_fault : string -> option WriteFault) (u : User) (fs : gmap string PdfFile) :
  let m := askopenfilename u in
  let o := asksaveasfilename u (suggested_name m) in
  let app := app_of (process_files stringWidth true write_fault u (start_app fs)) in
  m <> "" -> askopenfilenames u <> [] -> o <> "" ->
  (AskOpenNow o ∈ ui app <-> doc_error fs m = None /\ write_fault o = None)
  /\ (OpenViewer o ∈ ui app
      <-> doc_error fs m = None /\ write_fault o = None /\ askyesno u = true).
Proof.
  intros m o app Hm Ht Ho. subst app m o.
  unfold start_app. rewrite process_files_gui. cbn [app_of].
  apply not_str_false in Hm, Ho. apply truthy_list_true in Ht.
  rewrite Hm Ht Ho. cbn [negb ui]. rewrite app_nil_l run_returned.
  apply not_str_false in Ho.
  destruct (doc_error fs (askopenfilename u)) as [e|];
    [|destruct (write_fault (asksaveasfilename u (suggested_name (askopenfilename u))))
        as [f|]].
  - cbn [truthy]. rewrite app_nil_r !elem_of_cons !elem_of_nil.
    split; (split; [intros H; repeat (destruct H as [H|H]; [discriminate H|]); done
                   | by intros [? _]]).
  - cbn [truthy]. rewrite app_nil_r !elem_of_cons !elem_of_nil.
    split; (split; [intros H; repeat (destruct H as [H|H]; [discriminate H|]); done |]).
    + by intros [_ ?].
    + by intros (_ & ? & _).
  - rewrite (truthy_nonempty _ Ho). rewrite !elem_of_cons.
    split.
    + split; first done. intros _. do 8 right. by left.
    + destruct (askyesno u); rewrite ?elem_of_cons !elem_of_nil.
      * split; first done. intros _. do 9 right. by left.
      * split; last by intros (_ & _ & ?).
        intros H; repeat (destruct H as [H|H]; [discriminate H|]); done.
Qed.

(** X18. With a GUI [main] always returns normally, whether or not the
    assembly succeeded: no failure of the assembly reaches its handler or
    the exit status.  It first shows the welcome window centred on the
    screen, and if Start is not pressed it does nothing else. *)
Theorem main_with_gui_returns
    (stringWidth : string -> string -> float -> float)
    (write_fault : string -> option WriteFault) (u : User) (fs : gmap string PdfFile) :
  exists app rest,
    main stringWidth true write_fault u (start_app fs) = Done tt app
    /\ ui app = Welcome (winfo_screenwidth u / 2 - 200) (winfo_screenheight u / 2 - 100)
                :: rest
    /\ (presses_start u = false -> core app = initial fs /\ rest = []).
Proof.
  unfold main, except_Exception, ubind, ui_emit, start_app. cbn [core ui app].
  destruct (presses_start u).
  - rewrite process_files_gui.
    destruct (not_str (askopenfilename u)); first by do 2 eexists.
    destruct (negb (truthy_list (Some (askopenfilenames u)))); first by do 2 eexists.
    destruct (not_str _); by do 2 eexists.
  - by exists (mkApp (initial fs) [Welcome (winfo_screenwidth u / 2 - 200)
                                    (winfo_screenheight u / 2 - 100)]), [].
Qed.

(** X19. The document does not depend on whether there is a GUI: the pages
    composed, the files and the value returned are the same; only the error
    dialogs differ. *)
Theorem document_independent_of_gui
    (stringWidth : string -> string -> float -> float) (gui gui' : bool)
    (write_fault : string -> option WriteFault)
    (fs : gmap string PdfFile) (main_pdf : string) (trial_pdfs : list string)
    (output_path : string) (title : option string) :
  let r := run stringWidth gui write_fault fs main_pdf trial_pdfs output_path title in
  let r' := run stringWidth gui' write_fault fs main_pdf trial_pdfs output_path title in
  writer (state_of r) = writer (state_of r')
  /\ fsys (state_of r) = fsys (state_of r')
  /\ returned r = returned r'.
Proof.
  intros r r'. subst r r'. rewrite !run_returned.
  destruct (doc_error fs main_pdf) as [e|] eqn:He.
  - by rewrite !(run_main_fails _ _ _ _ _ _ _ _ _ He).
  - by rewrite !(run_main_ok _ _ _ _ _ _ _ _ He).
Qed.

(** ** The properties on the sample inputs *)

Lemma calculate_total_pages_total_witness :
  (exists s', calculate_total_pages "/in/main.pdf" ["/in/a.pdf"; "/in/b.pdf"]
                (initial sample_fs) = Ok 5 s')
  /\ page_count sample_fs "/in/main.pdf" = 2
  /\ page_count sample_fs "/in/a.pdf" = 0.
Proof.
  destruct (calculate_total_pages_total "/in/main.pdf" ["/in/a.pdf"; "/in/b.pdf"]
              (initial sample_fs)) as ((s' & Hrun & _) & Hcount & Hzero).
  split; [by exists s' | split].
  - apply (Hcount "/in/main.pdf" [Good (sample_page "m1"); Good (sample_page "m2")]).
    reflexivity.
  - apply (Hzero "/in/a.pdf"). left. reflexivity.
Defined.

Lemma successful_run_numbering_witness :
  let s := state_of (run mono_width true (fun _ => None) sample_fs
                       "/in/main.pdf" ["/in/b.pdf"] "/out/report.pdf" (Some "Report")) in
  loads sample_fs "/in/main.pdf" [sample_page "m1"; sample_page "m2"]
  /\ Forall2 (loads sample_fs) ["/in/b.pdf"] [[sample_page "b1"]]
  /\ length (writer s) = 4
  /\ page_number <$> specs_of (trace s) = [1; 2; 3; 4].
Proof.
  assert (Hmain : loads sample_fs "/in/main.pdf" [sample_page "m1"; sample_page "m2"])
    by reflexivity.
  assert (Htrials : Forall2 (loads sample_fs) ["/in/b.pdf"] [[sample_page "b1"]]).
  { constructor; [reflexivity | constructor]. }
  destruct (successful_run_numbering mono_width true (fun _ => None) sample_fs
              "/in/main.pdf" ["/in/b.pdf"] "/out/report.pdf" (Some "Report")
              _ _ Hmain Htrials) as (_ & Hlen & Hspecs & _).
  split; [exact Hmain | split; [exact Htrials | split]].
  - exact Hlen.
  - rewrite Hspecs. reflexivity.
Defined.

Lemma failed_trial_is_skipped_witness :
  (exists s',
     process_trial mono_width true 5 None 0 "/in/a.pdf" (mkState sample_fs [] 3 [])
     = Ok tt s'
     /\ writer s' = [create_cover_page mono_width "a" 3 5 None])
  /\ writer (state_of (run mono_width true (fun _ => None) sample_fs
                         "/in/main.pdf" ["/in/a.pdf"; "/in/b.pdf"] "/out/report.pdf" None))
     = [merged (sample_page "m1") (create_page_number_overlay mono_width 1 5 None);
        merged (sample_page "m2") (create_page_number_overlay mono_width 2 5 None);
        create_cover_page mono_width "a" 3 5 None;
        create_cover_page mono_width "b" 4 5 None;
        merged (sample_page "b1") (create_page_number_overlay mono_width 5 5 None)].
Proof.
  destruct (failed_trial_is_skipped mono_width true (fun _ => None)) as [Hone Hrun].
  split.
  - destruct (Hone 5 None 0 "/in/a.pdf" ["/in/b.pdf"] (mkState sample_fs [] 3 [])
                (FileNotFoundError "/in/a.pdf") eq_refl) as (s' & Hs' & Hw & _).
    exists s'. split; [exact Hs' | exact Hw].
  - apply (Hrun sample_fs "/in/main.pdf" "/in/a.pdf" "/in/b.pdf" "/out/report.pdf" None
             (sample_page "m1") (sample_page "m2") (sample_page "b1")).
    + reflexivity.
    + discriminate.
    + reflexivity.
Defined.

Lemma main_failure_aborts_witness :
  let r := run mono_width true (fun _ => None) sample_fs
             "/in/notes.txt" ["/in/b.pdf"] "/out/report.pdf" None in
  returned r = None /\ fsys (state_of r) = sample_fs.
Proof.
  destruct (main_failure_aborts mono_width true (fun _ => None) sample_fs
              "/in/notes.txt" ["/in/b.pdf"] "/out/report.pdf" None)
    as (_ & Hret & Hfs & _).
  - intros contents H. discriminate H.
  - split; [exact Hret | exact Hfs].
Defined.

Lemma cover_precedes_trial_body_witness :
  exists evs,
    process_trial mono_width true 5 None 1 "/in/b.pdf" (mkState sample_fs [] 4 [])
    = Ok tt (advance (mkState sample_fs [] 4 [])
               [create_cover_page mono_width "b" 4 5 None;
                merged (sample_page "b1") (create_page_number_overlay mono_width 5 5 None)]
               evs)
    /\ covers_of evs = [("b", mkSpec 4 5 None)].
Proof.
  destruct (cover_precedes_trial_body mono_width true 5 None 1 "/in/b.pdf"
              [sample_page "b1"] (mkState sample_fs [] 4 []) eq_refl)
    as (evs & Hrun & Hcovers & _).
  exists evs. split; [exact Hrun | exact Hcovers].
Defined.

Lemma write_failure_returns_None_witness :
  let r := run mono_width true (fun _ => Some CannotOpen) sample_fs
             "/in/main.pdf" ["/in/b.pdf"] "/out/report.pdf" None in
  returned r = None
  /\ LogError (MsgErrWrite (OSError "/out/report.pdf")) ∈ trace (state_of r).
Proof.
  destruct (write_failure_returns_None mono_width true (fun _ => Some CannotOpen) sample_fs
              "/in/main.pdf" ["/in/b.pdf"] "/out/report.pdf" None CannotOpen eq_refl)
    as (_ & Hret & _ & Hlog).
  split; [exact Hret | exact (proj1 (Hlog eq_refl))].
Defined.

Lemma main_only_run_witness :
  let r := run mono_width true (fun _ => None) sample_fs
             "/in/main.pdf" [] "/out/report.pdf" None in
  returned r = Some "/out/report.pdf"
  /\ writer (state_of r)
     = [merged (sample_page "m1") (create_page_number_overlay mono_width 1 2 None);
        merged (sample_page "m2") (create_page_number_overlay mono_width 2 2 None)].
Proof.
  destruct (main_only_run mono_width true (fun _ => None) sample_fs
              "/in/main.pdf" "/out/report.pdf" None
              [sample_page "m1"; sample_page "m2"] eq_refl)
    as (_ & Hw & _ & _ & Hok).
  split; [exact (proj1 (Hok eq_refl)) | exact Hw].
Defined.

Lemma counter_is_one_plus_appended_witness :
  let s1 := state_of (process_trial mono_width true 5 None 0 "/in/a.pdf"
                        (mkState sample_fs [] 1 [])) in
  current_page s1 = 1 + length (writer s1).
Proof.
  destruct (counter_is_one_plus_appended mono_width true (fun _ => None) sample_fs
              "/in/main.pdf" ["/in/a.pdf"; "/in/b.pdf"] "/out/report.pdf" None)
    as (_ & _ & _ & _ & Htrial).
  exact (Htrial 0 "/in/a.pdf" (mkState sample_fs [] 1 []) eq_refl).
Defined.

(** C9, as stated, fails: with an empty trial list and a readable main
    document, a destination that cannot be opened makes the run return
    [None], and nothing is written. *)
Lemma main_only_run_unwritable_destination :
  let r := run mono_width true (fun _ => Some CannotOpen) sample_fs
             "/in/main.pdf" [] "/out/report.pdf" None in
  loads sample_fs "/in/main.pdf" [sample_page "m1"; sample_page "m2"]
  /\ returned r = None
  /\ returned r <> Some "/out/report.pdf"
  /\ fsys (state_of r) !! "/out/report.pdf" = None.
Proof.
  vm_compute. repeat split; congruence.
Qed.

(** ** The further properties on the sample inputs *)

Lemma other_files_untouched_witness :
  fsys (state_of (run mono_width true (fun _ => None) sample_fs
                    "/in/main.pdf" ["/in/b.pdf"] "/out/report.pdf" None))
    !! "/in/main.pdf"
  = sample_fs !! "/in/main.pdf".
Proof.
  apply (other_files_untouched mono_width true (fun _ => None) sample_fs
           "/in/main.pdf" ["/in/b.pdf"] "/out/report.pdf" None "/in/main.pdf").
  discriminate.
Defined.

Lemma destination_may_overwrite_main_witness :
  let r := run mono_width true (fun _ => None) sample_fs
             "/in/main.pdf" [] "/in/main.pdf" None in
  returned r = Some "/in/main.pdf"
  /\ fsys (state_of r) !! "/in/main.pdf" = Some (Pdf (Good <$> writer (state_of r))).
Proof.
  apply (destination_may_overwrite_main mono_width true (fun _ => None) sample_fs
           "/in/main.pdf" [] None [sample_page "m1"; sample_page "m2"]);
    reflexivity.
Defined.

Lemma written_output_page_count_witness :
  let s := state_of (run mono_width true (fun _ => None) sample_fs
                       "/in/main.pdf" ["/in/a.pdf"; "/in/b.pdf"] "/out/report.pdf" None) in
  get_page_count "/out/report.pdf" s = Ok (length (writer s)) s
  /\ length (writer s) <= 5.
Proof.
  apply (written_output_page_count mono_width true (fun _ => None) sample_fs
           "/in/main.pdf" ["/in/a.pdf"; "/in/b.pdf"] "/out/report.pdf" None);
    reflexivity.
Defined.

Lemma appended_equals_total_iff_witness :
  length (writer (state_of (run mono_width true (fun _ => None) sample_fs
                              "/in/main.pdf" ["/in/a.pdf"; "/in/b.pdf"]
                              "/out/report.pdf" None)))
  = 5.
Proof.
  apply (appended_equals_total_iff mono_width true (fun _ => None) sample_fs
           "/in/main.pdf" ["/in/a.pdf"; "/in/b.pdf"] "/out/report.pdf" None eq_refl).
  repeat constructor.
Defined.

Lemma one_cover_per_trial_witness :
  (covers_of (trace (state_of (run mono_width true (fun _ => None) sample_fs
                                 "/in/main.pdf" ["/in/a.pdf"; "/in/b.pdf"]
                                 "/out/report.pdf" None)))).*1
  = ["a"; "b"].
Proof.
  apply (one_cover_per_trial mono_width true (fun _ => None) sample_fs
           "/in/main.pdf" ["/in/a.pdf"; "/in/b.pdf"] "/out/report.pdf" None eq_refl).
Defined.

Lemma total_invariant_under_permutation_witness :
  exists total s1 s2,
    calculate_total_pages "/in/main.pdf" ["/in/a.pdf"; "/in/b.pdf"] (initial sample_fs)
    = Ok total s1
    /\ calculate_total_pages "/in/main.pdf" ["/in/b.pdf"; "/in/a.pdf"] (initial sample_fs)
       = Ok total s2.
Proof.
  apply (total_invariant_under_permutation "/in/main.pdf"
           ["/in/a.pdf"; "/in/b.pdf"] ["/in/b.pdf"; "/in/a.pdf"] (initial sample_fs)).
  apply perm_swap.
Defined.

Lemma overlay_determines_page_number_witness :
  create_page_number_overlay mono_width 1 5 None
  <> create_page_number_overlay mono_width 2 5 None.
Proof.
  apply (overlay_determines_page_number mono_width 1 2 5 None). discriminate.
Defined.

Lemma cover_title_ignores_directory_witness :
  cover_title ("/in/" +:+ "trial.v2.pdf") = cover_title "trial.v2.pdf".
Proof.
  apply (cover_title_ignores_directory "/in/" "trial.v2.pdf").
  - right. exists "/in". reflexivity.
  - reflexivity.
Defined.

Lemma nothing_without_all_answers_witness :
  core (app_of (process_files mono_width true (fun _ => None)
                  (mkUser 1920 1080 true "/in/main.pdf" [] None (fun _ => "/out/x.pdf") true)
                  (start_app sample_fs)))
  = initial sample_fs.
Proof.
  apply (nothing_without_all_answers mono_width true (fun _ => None)
           (mkUser 1920 1080 true "/in/main.pdf" [] None (fun _ => "/out/x.pdf") true)
           sample_fs).
  right. right. left. reflexivity.
Defined.

Lemma only_chosen_destination_written_witness :
  fsys (core (app_of (process_files mono_width true (fun _ => None) sample_user
                        (start_app sample_fs))))
    !! "/in/main.pdf"
  = sample_fs !! "/in/main.pdf".
Proof.
  apply (only_chosen_destination_written mono_width true (fun _ => None) sample_user
           sample_fs "/in/main.pdf").
  vm_compute. discriminate.
Defined.

Lemma open_prompt_iff_written_witness :
  AskOpenNow "/out/main_WithCovers.pdf"
    ∈ ui (app_of (process_files mono_width true (fun _ => None) sample_user
                    (start_app sample_fs))).
Proof.
  assert (Hm : askopenfilename sample_user <> "") by discriminate.
  assert (Ht : askopenfilenames sample_user <> []) by discriminate.
  assert (Ho : asksaveasfilename sample_user (suggested_name (askopenfilename sample_user))
               <> "") by (vm_compute; discriminate).
  destruct (open_prompt_iff_written mono_width (fun _ => None) sample_user sample_fs
              Hm Ht Ho) as [Hask _].
  apply Hask. split; reflexivity.
Defined.

Lemma main_with_gui_returns_witness :
  exists app,
    main mono_width true (fun _ => None)
         (mkUser 1920 1080 false "/in/main.pdf" ["/in/b.pdf"] None (fun _ => "/out/x.pdf") true)
         (start_app sample_fs)
    = Done tt app
    /\ core app = initial sample_fs.
Proof.
  destruct (main_with_gui_returns mono_width (fun _ => None)
              (mkUser 1920 1080 false "/in/main.pdf" ["/in/b.pdf"] None
                      (fun _ => "/out/x.pdf") true)
              sample_fs) as (app & rest & Hmain & _ & Hidle).
  exists app. split; [exact Hmain | exact (proj1 (Hidle eq_refl))].
Defined.

(** ** Examples *)


(** The example of the specification: 5 main pages, trials of 3 and 2. *)
Example total_of_5_3_2 :
  let fs : gmap string PdfFile :=
    <["main.pdf" := Pdf (replicate 5 (Good []))]>
    (<["a.pdf" := Pdf (replicate 3 (Good []))]>
    (<["b.pdf" := Pdf (replicate 2 (Good []))]> ∅)) in
  expected_total fs "main.pdf" ["a.pdf"; "b.pdf"] = 12.
Proof. vm_compute. reflexivity. Qed.

Example basename_ex : PosixPath.basename "/data/run 1/trial_A.v2.pdf" = "trial_A.v2.pdf".
Proof. reflexivity. Qed.

Example splitext_ex : PosixPath.splitext "trial_A.v2.pdf" = ("trial_A.v2", ".pdf").
Proof. reflexivity. Qed.

Example splitext_hidden : PosixPath.splitext ".hidden" = (".hidden", "").
Proof. reflexivity. Qed.
